(** * PureVision: chroma-key background removal

    A shallow embedding of [utils/imageProcessing.ts] (colour distance,
    background detector, transparency compositor) and of the mask-paint
    handler [handleMouseMove] of the application component, with the
    properties the design document states about them.

    Conventions of the embedding.
    - A JavaScript [number] is an exact real ([R]); IEEE-754 rounding, NaN
      and the infinities are not modelled.
    - A [Uint8ClampedArray] is a [list Z] of bytes.  Reading an element
      yields the byte as a number; writing one converts the number with
      [ToUint8Clamp] (clamp to [0,255], round to nearest, ties to even);
      writing past the end does nothing.
    - Image dimensions and pixel coordinates are integers ([Z]); byte offsets
      into a buffer are [nat].
    - What the browser draws is kept symbolically: a mask canvas is the list
      of discs filled on it so far. *)

From Stdlib Require Import Reals Lra Lia ZArith String Ascii.
From Stdlib Require Import Hexadecimal HexadecimalString.
From stdpp Require Import base list.

Open Scope R_scope.

(* ------------------------------------------------------------------ *)
(** * Numbers and typed arrays *)

Module Js.

Definition number := R.

(** The comparisons [x <= y] and [x >= y]. *)
Definition lte (x y : number) : bool := if Rle_dec x y then true else false.
Definition gte (x y : number) : bool := lte y x.

(** [Math.round]: the integer nearest to [x], halves going up. *)
Definition Math_round (x : number) : number := IZR (Zfloor (x + / 2)).

Definition Math_max (x y : number) : number := Rmax x y.
Definition Math_min (x y : number) : number := Rmin x y.
Definition Math_pow (x : number) (n : nat) : number := x ^ n.
Definition Math_sqrt (x : number) : number := sqrt x.

(** The conversion a [Uint8ClampedArray] applies to a stored number. *)
Definition ToUint8Clamp (x : number) : Z :=
  let clamped := Rmin (Rmax x 0) 255 in
  let f := Zfloor clamped in
  if Rlt_dec clamped (IZR f + / 2) then f
  else if Rlt_dec (IZR f + / 2) clamped then (f + 1)%Z
  else if Z.even f then f else (f + 1)%Z.

(** [data[i] = v] on a [Uint8ClampedArray]. *)
Definition store (i : nat) (v : number) (data : list Z) : list Z :=
  <[i := ToUint8Clamp v]> data.

(** [s[i]] on a [Uint8ClampedArray], as a number.  Every read of the
    modelled code is in range; past the end the model yields a fixed default
    byte. *)
Definition load (s : list Z) (i : nat) : number := IZR (s !!! i).

End Js.

Import Js.

(* ------------------------------------------------------------------ *)
(** * The browser objects the code talks to *)

(** A 2D canvas holding pixels: [width * height] RGBA quadruples, row-major. *)
Module Canvas.

Record t := mk { width : Z; height : Z; data : list Z }.

(** The four bytes of the pixel at [(x, y)]; transparent black outside the
    canvas. *)
Definition pixel (ctx : t) (x y : Z) : list Z :=
  if ((0 <=? x) && (x <? width ctx) && (0 <=? y) && (y <? height ctx))%Z
  then (fun c : nat => data ctx !!! (4 * Z.to_nat (y * width ctx + x) + c)%nat)
         <$> [0; 1; 2; 3]%nat
  else [0; 0; 0; 0]%Z.

(** [ctx.getImageData(sx, sy, sw, sh).data], for [sw] and [sh] positive: the
    rows of the rectangle, top to bottom, each left to right. *)
Definition getImageData (ctx : t) (sx sy sw sh : Z) : list Z :=
  y ← seqZ 0 sh; x ← seqZ 0 sw; pixel ctx (sx + x) (sy + y).

End Canvas.

(** [getBoundingClientRect()]. *)
Module DOMRect.

Record t := mk { left : number; top : number; width : number; height : number }.

End DOMRect.

(* ------------------------------------------------------------------ *)
(** * types.ts *)

Record RGBColor := mkRGB { r : number; g : number; b : number }.

Record ProcessingOptions := mkOptions {
  tolerance : number;
  smoothness : number;
  targetColor : RGBColor;
  autoDetect : bool;
  brushSize : number
}.

Module ImageDataState.

Record t := mk {
  originalUrl : string;
  processedUrl : option string;
  width : number;
  height : number
}.

End ImageDataState.

(* ------------------------------------------------------------------ *)
(** * utils/imageProcessing.ts *)

Definition getColorDistance (c1 c2 : RGBColor) : number :=
  Math_sqrt (Math_pow (r c1 - r c2) 2 +
             Math_pow (g c1 - g c2) 2 +
             Math_pow (b c1 - b c2) 2).

Definition detectBackgroundColor (ctx : Canvas.t) (width height : Z)
    : RGBColor :=
  let samples :=
    [ Canvas.getImageData ctx 0 0 1 1;
      Canvas.getImageData ctx (width - 1) 0 1 1;
      Canvas.getImageData ctx 0 (height - 1) 1 1;
      Canvas.getImageData ctx (width - 1) (height - 1) 1 1;
      Canvas.getImageData ctx (width / 2) 0 1 1 ] in
  let '(r, g, b) :=
    foldl (fun '(r, g, b) s => (r + load s 0, g + load s 1, b + load s 2))
      (0, 0, 0) samples in
  mkRGB (Math_round (r / INR (length samples)))
        (Math_round (g / INR (length samples)))
        (Math_round (b / INR (length samples))).

(** Body of the [for] loop of [makeTransparent] at byte offset [i].  When a
    channel read falls past the end of the buffer the source computes with
    [undefined], both comparisons fail and the write of 255 lands past the
    end, where it is ignored. *)
Definition pixelStep (targetColor : RGBColor) (tolerance smoothRange : number)
    (i : nat) (data : list Z) : list Z :=
  match data !! i, data !! (i + 1)%nat, data !! (i + 2)%nat with
  | Some cr, Some cg, Some cb =>
      let currentPixel := mkRGB (IZR cr) (IZR cg) (IZR cb) in
      let distance := getColorDistance currentPixel targetColor in
      if lte distance tolerance then
        store (i + 3) 0 data
      else if lte distance (tolerance + smoothRange) then
        let alpha := ((distance - tolerance) / smoothRange) * 255 in
        store (i + 3) (Math_min 255 (Math_max 0 alpha)) data
      else
        store (i + 3) 255 data
  | _, _, _ => store (i + 3) 255 data
  end.

(** [for (let i = 0; i < data.length; i += 4) ...], with [fuel] bounding the
    number of iterations. *)
Fixpoint pixelLoop (targetColor : RGBColor) (tolerance smoothRange : number)
    (fuel i : nat) (data : list Z) : list Z :=
  match fuel with
  | O => data
  | S fuel' =>
      if decide (i < length data)%nat
      then pixelLoop targetColor tolerance smoothRange fuel' (i + 4)
             (pixelStep targetColor tolerance smoothRange i data)
      else data
  end.

(** [makeTransparent].  [data] is the buffer of
    [ctx.getImageData(0, 0, width, height)]; the loop rewrites it in place,
    [ctx.putImageData] writes it back and [toDataURL] encodes it as PNG, which
    is lossless: the result is modelled as the buffer itself.  An omitted
    [smoothness] argument is [None].  [length data] iterations always reach
    the loop's own exit (lemma [pixelLoop_fuel]). *)
Definition makeTransparent (ctx : Canvas.t) (width height : Z)
    (targetColor : RGBColor) (tolerance : number)
    (smoothness : option number) : list Z :=
  let smoothness := default 20 smoothness in
  let data := Canvas.getImageData ctx 0 0 width height in
  let smoothRange := Math_max smoothness 1 in
  pixelLoop targetColor tolerance smoothRange (length data) 0 data.

(* ------------------------------------------------------------------ *)
(** * The application component: painting on the mask *)

(** A disc filled on a canvas by [arc(x, y, radius, 0, 2 * PI)] and
    [fill()] under the given [fillStyle]. *)
Record Disc := mkDisc {
  fillStyle : RGBColor;
  centerX : number;
  centerY : number;
  radius : number
}.

(** The mask canvas: its raster size and the discs filled on it, oldest
    first. *)
Module MaskCanvas.

Record t := mk { width : number; height : number; fills : list Disc }.

Definition fillDisc (d : Disc) (canvas : t) : t :=
  mk (width canvas) (height canvas) (fills canvas ++ [d]).

End MaskCanvas.

Record Touch := mkTouch { touchClientX : number; touchClientY : number }.

(** A mouse or touch event, with the bounding rectangle of its
    [currentTarget]. *)
Inductive PointerEvent :=
| MouseEvent (containerRect : DOMRect.t) (clientX clientY : number)
| TouchEvent (containerRect : DOMRect.t) (touches : list Touch).

Definition containerRectOf (e : PointerEvent) : DOMRect.t :=
  match e with
  | MouseEvent rect _ _ => rect
  | TouchEvent rect _ => rect
  end.

(** ['touches' in e ? e.touches[0].clientX : e.clientX], and the same for
    [clientY]; [None] when [e.touches[0]] is undefined and the access throws. *)
Definition clientPosition (e : PointerEvent) : option (number * number) :=
  match e with
  | MouseEvent _ x y => Some (x, y)
  | TouchEvent _ touches =>
      match touches !! 0%nat with
      | Some t => Some (touchClientX t, touchClientY t)
      | None => None
      end
  end.

Record CursorPos := mkCursorPos {
  cursorX : number;
  cursorY : number;
  visible : bool
}.

(** What a handler of the component sees and changes: the React state of the
    current render, the refs, and the number of [processImage()] calls made
    so far. *)
Record AppState := mkApp {
  image : option ImageDataState.t;
  options : ProcessingOptions;
  isEditMode : bool;
  isDrawing : bool;
  cursorPos : CursorPos;
  maskCanvasRef : option MaskCanvas.t;
  displayImgRef : option DOMRect.t;
  processImageCalls : nat
}.

Definition setCursorPos (c : CursorPos) (st : AppState) : AppState :=
  mkApp (image st) (options st) (isEditMode st) (isDrawing st) c
    (maskCanvasRef st) (displayImgRef st) (processImageCalls st).

Definition setMaskCanvas (m : MaskCanvas.t) (st : AppState) : AppState :=
  mkApp (image st) (options st) (isEditMode st) (isDrawing st) (cursorPos st)
    (Some m) (displayImgRef st) (processImageCalls st).

(** [processImage()]: the recomposition runs later, when the image has
    loaded; the call is recorded. *)
Definition processImage (st : AppState) : AppState :=
  mkApp (image st) (options st) (isEditMode st) (isDrawing st) (cursorPos st)
    (maskCanvasRef st) (displayImgRef st) (S (processImageCalls st)).

Definition handleMouseMove (e : PointerEvent) (st : AppState) : AppState :=
  match isEditMode st, image st, displayImgRef st with
  | true, Some _, Some imgRect =>
      let containerRect := containerRectOf e in
      match clientPosition e with
      | None => st
      | Some (clientX, clientY) =>
          let uiX := clientX - DOMRect.left containerRect in
          let uiY := clientY - DOMRect.top containerRect in
          let st := setCursorPos (mkCursorPos uiX uiY true) st in
          if isDrawing st then
            match maskCanvasRef st with
            | None => st
            | Some canvas =>
                let relX := clientX - DOMRect.left imgRect in
                let relY := clientY - DOMRect.top imgRect in
                if gte relX 0 && lte relX (DOMRect.width imgRect) &&
                   gte relY 0 && lte relY (DOMRect.height imgRect)
                then
                  let scaleX :=
                    MaskCanvas.width canvas / DOMRect.width imgRect in
                  let scaleY :=
                    MaskCanvas.height canvas / DOMRect.height imgRect in
                  let x := relX * scaleX in
                  let y := relY * scaleY in
                  let disc :=
                    mkDisc (targetColor (options st)) x y
                      ((brushSize (options st) * scaleX) / 2) in
                  processImage
                    (setMaskCanvas (MaskCanvas.fillDisc disc canvas) st)
                else st
            end
          else st
      end
  | _, _, _ => st
  end.

(** The other handlers of the paint interaction.  [handleMouseMove] reads
    [isDrawing] of the render it was created in: a [setIsDrawing] made by the
    same handler is not seen by it. *)

Definition setIsDrawing (v : bool) (st : AppState) : AppState :=
  mkApp (image st) (options st) (isEditMode st) v (cursorPos st)
    (maskCanvasRef st) (displayImgRef st) (processImageCalls st).

(** [originalImgRef] is the ref [processImage] fills when an image has
    loaded; it is a parameter here. *)
Definition startDrawing (originalImgRef : option Canvas.t) (e : PointerEvent)
    (st : AppState) : AppState :=
  match isEditMode st, maskCanvasRef st, originalImgRef with
  | true, Some _, Some _ => setIsDrawing true (handleMouseMove e st)
  | _, _, _ => st
  end.

Definition stopDrawing (st : AppState) : AppState := setIsDrawing false st.

(* ------------------------------------------------------------------ *)
(** * The colour picker: hexadecimal colours (App.tsx)

    Channels are integers wherever these functions are called;
    [toString(16)] of a fraction is not modelled. *)

(** [x.toString(16)] for an integer [x]. *)
Definition toString16 (x : Z) : string :=
  NilZero.string_of_int (Z.to_hex_int x).

Definition componentToHex (x : Z) : string :=
  let hex := toString16 x in
  if (String.length hex =? 1)%nat then ("0" ++ hex)%string else hex.

(** [rgbToHex], on the three channels of its argument. *)
Definition rgbToHex (cr cg cb : Z) : string :=
  ("#" ++ componentToHex cr ++ componentToHex cg ++ componentToHex cb)%string.

(** The class [[a-f\d]] under the flag [i]. *)
Definition isHexDigit (c : ascii) : bool :=
  let n := nat_of_ascii c in
  ((48 <=? n) && (n <=? 57) || (97 <=? n) && (n <=? 102)
   || (65 <=? n) && (n <=? 70))%nat.

Definition hexDigitValue (c : ascii) : Z :=
  let n := Z.of_nat (nat_of_ascii c) in
  if (n <=? 57)%Z then (n - 48)%Z
  else if (n <=? 70)%Z then (n - 55)%Z
  else (n - 87)%Z.

(** [parseInt(s, 16)] on a string of hexadecimal digits. *)
Fixpoint parseInt16 (acc : Z) (s : string) : Z :=
  match s with
  | EmptyString => acc
  | String c s' => parseInt16 (16 * acc + hexDigitValue c) s'
  end.

(** [/^#?([a-f\d]{2})([a-f\d]{2})([a-f\d]{2})$/i.exec(hex)]: the three
    groups, or [None] for [null]. *)
Definition execHexColor (hex : string) : option (string * string * string) :=
  let body :=
    match hex with
    | String "#" rest => rest
    | _ => hex
    end in
  match body with
  | String c1 (String c2 (String c3 (String c4 (String c5
      (String c6 EmptyString))))) =>
      if forallb isHexDigit [c1; c2; c3; c4; c5; c6]
      then Some (String c1 (String c2 EmptyString),
                 String c3 (String c4 EmptyString),
                 String c5 (String c6 EmptyString))
      else None
  | _ => None
  end.

Definition hexToRgb (hex : string) : RGBColor :=
  match execHexColor hex with
  | Some (g1, g2, g3) =>
      mkRGB (IZR (parseInt16 0 g1)) (IZR (parseInt16 0 g2))
            (IZR (parseInt16 0 g3))
  | None => mkRGB 0 0 0
  end.

(* ------------------------------------------------------------------ *)
(** * Vocabulary of the statements *)

(** Pixel [k] of an RGBA buffer: the four bytes at offsets [4k .. 4k+3]. *)
Record Pixel := mkPixel { red : Z; green : Z; blue : Z; alpha : Z }.

Definition getPixel (data : list Z) (k : nat) : option Pixel :=
  match data !! (4 * k)%nat, data !! (4 * k + 1)%nat,
        data !! (4 * k + 2)%nat, data !! (4 * k + 3)%nat with
  | Some cr, Some cg, Some cb, Some ca => Some (mkPixel cr cg cb ca)
  | _, _, _, _ => None
  end.

(** The colour of a pixel, as the loop builds [currentPixel]. *)
Definition colorOf (p : Pixel) : RGBColor :=
  mkRGB (IZR (red p)) (IZR (green p)) (IZR (blue p)).

(** The same pixel with another alpha byte. *)
Definition withAlpha (p : Pixel) (a : Z) : Pixel :=
  mkPixel (red p) (green p) (blue p) a.

(** The divisor of the falloff that [makeTransparent] derives from its
    [smoothness] argument. *)
Definition smoothRangeOf (smoothness : option number) : number :=
  Math_max (default 20 smoothness) 1.

(** The number one iteration of the pixel loop assigns to [data[i + 3]], as
    a function of the [distance] it computed for the pixel. *)
Definition alphaValue (tolerance smoothRange distance : number) : number :=
  if lte distance tolerance then 0
  else if lte distance (tolerance + smoothRange) then
    Math_min 255 (Math_max 0 (((distance - tolerance) / smoothRange) * 255))
  else 255.

(** The byte one iteration of the pixel loop writes at offset [i + 3], read
    off the three channel bytes at [i], [i + 1] and [i + 2]. *)
Definition pixelAlpha (targetColor : RGBColor)
    (tolerance smoothRange : number) (data : list Z) (i : nat) : Z :=
  match data !! i, data !! (i + 1)%nat, data !! (i + 2)%nat with
  | Some cr, Some cg, Some cb =>
      ToUint8Clamp
        (alphaValue tolerance smoothRange
           (getColorDistance (mkRGB (IZR cr) (IZR cg) (IZR cb)) targetColor))
  | _, _, _ => ToUint8Clamp 255
  end.

(** [clamp(x, lo, hi)] of the design document. *)
Definition clamp (x lo hi : number) : number := Rmin hi (Rmax lo x).

(** Every pixel of the [width] by [height] image read through [ctx] has the
    colour bytes [cr], [cg], [cb]; its alpha is free. *)
Definition uniformImage (ctx : Canvas.t) (width height : Z) (cr cg cb : Z)
    : Prop :=
  forall x y : Z, (0 <= x < width)%Z -> (0 <= y < height)%Z ->
    exists ca : Z, Canvas.getImageData ctx x y 1 1 = [cr; cg; cb; ca].

(** A value a byte buffer can hold. *)
Definition isByte (x : Z) : Prop := (0 <= x <= 255)%Z.

(** A colour whose channels lie in the byte range. *)
Definition byteColor (c : RGBColor) : Prop :=
  0 <= r c <= 255 /\ 0 <= g c <= 255 /\ 0 <= b c <= 255.

(** A run of pointer events, each handled in the render that follows the
    previous one. *)
Definition drag (es : list PointerEvent) (st : AppState) : AppState :=
  foldl (fun s e => handleMouseMove e s) st es.


(** [componentToHex x] is two hexadecimal digits that read back as [x]. *)
Definition componentOk (x : Z) : bool :=
  match componentToHex x with
  | String c1 (String c2 EmptyString) =>
      isHexDigit c1 && isHexDigit c2 &&
      (parseInt16 0 (String c1 (String c2 EmptyString)) =? x)%Z
  | _ => false
  end.

(* ------------------------------------------------------------------ *)
(** * Properties of the number model *)

Section JsFacts.

Lemma Math_round_IZR (z : Z) : Math_round (IZR z) = IZR z.
Proof.
  unfold Math_round. f_equal. apply Zfloor_eq. lra.
Qed.

Lemma clamp_bounds (x : R) : 0 <= Rmin (Rmax x 0) 255 <= 255.
Proof.
  split.
  - apply Rmin_glb; [apply Rmax_r | lra].
  - apply Rmin_r.
Qed.

Lemma clamp_mono (x y : R) :
  x <= y -> Rmin (Rmax x 0) 255 <= Rmin (Rmax y 0) 255.
Proof.
  intros Hxy. apply Rle_min_compat_r. apply Rle_max_compat_r. exact Hxy.
Qed.

Lemma ToUint8Clamp_cases (x : R) :
  let c := Rmin (Rmax x 0) 255 in
  let f := Zfloor c in
  (ToUint8Clamp x = f /\ c <= IZR f + / 2) \/
  (ToUint8Clamp x = (f + 1)%Z /\ IZR f + / 2 <= c).
Proof.
  intros c f. unfold ToUint8Clamp. fold c. fold f.
  destruct (Rlt_dec c (IZR f + / 2)) as [Hlt | Hge].
  - left. split; [reflexivity | lra].
  - destruct (Rlt_dec (IZR f + / 2) c) as [Hgt | Hle].
    + right. split; [reflexivity | lra].
    + destruct (Z.even f); [left | right]; split; try reflexivity; lra.
Qed.

Lemma ToUint8Clamp_range (x : R) : (0 <= ToUint8Clamp x <= 255)%Z.
Proof.
  pose proof (clamp_bounds x) as [Hlo Hhi].
  pose proof (Zfloor_bound (Rmin (Rmax x 0) 255)) as [Hf1 Hf2].
  pose proof (Zfloor_lub 0 _ Hlo) as Hf0.
  destruct (ToUint8Clamp_cases x) as [[-> Hc] | [-> Hc]]; cbv zeta in *.
  - split; [exact Hf0 |]. apply le_IZR. lra.
  - split; [lia |].
    assert (IZR (Zfloor (Rmin (Rmax x 0) 255)) < 255) as Hlt by lra.
    apply lt_IZR in Hlt. lia.
Qed.

Lemma ToUint8Clamp_IZR (z : Z) : (0 <= z <= 255)%Z -> ToUint8Clamp (IZR z) = z.
Proof.
  intros [Hlo Hhi]. apply IZR_le in Hlo, Hhi.
  unfold ToUint8Clamp.
  rewrite (Rmax_left (IZR z) 0) by exact Hlo.
  rewrite (Rmin_left (IZR z) 255) by exact Hhi.
  rewrite ZfloorZ.
  destruct (Rlt_dec (IZR z) (IZR z + / 2)) as [_ | Hn]; [reflexivity | lra].
Qed.

Lemma ToUint8Clamp_0 : ToUint8Clamp 0 = 0%Z.
Proof. apply (ToUint8Clamp_IZR 0). lia. Qed.

Lemma ToUint8Clamp_255 : ToUint8Clamp 255 = 255%Z.
Proof. apply (ToUint8Clamp_IZR 255). lia. Qed.

(** The store conversion is monotone: a larger number never stores a
    smaller byte. *)
Lemma ToUint8Clamp_mono (x y : R) :
  x <= y -> (ToUint8Clamp x <= ToUint8Clamp y)%Z.
Proof.
  intros Hxy. pose proof (clamp_mono x y Hxy) as Hc.
  pose proof (Zfloor_le _ _ Hc) as Hf.
  pose proof (Zfloor_bound (Rmin (Rmax x 0) 255)) as [Hx1 Hx2].
  pose proof (Zfloor_bound (Rmin (Rmax y 0) 255)) as [Hy1 Hy2].
  unfold ToUint8Clamp.
  set (cx := Rmin (Rmax x 0) 255) in *. set (cy := Rmin (Rmax y 0) 255) in *.
  set (fx := Zfloor cx) in *. set (fy := Zfloor cy) in *.
  destruct (Z.eq_dec fx fy) as [Heq | Hne].
  - rewrite <- Heq in *. clear Hf.
    destruct (Rlt_dec cx (IZR fx + / 2)) as [Hx | Hx].
    + destruct (Rlt_dec cy (IZR fx + / 2)); [lia |].
      destruct (Rlt_dec (IZR fx + / 2) cy); [lia |].
      destruct (Z.even fx); lia.
    + destruct (Rlt_dec cy (IZR fx + / 2)) as [Hy | Hy]; [lra |].
      destruct (Rlt_dec (IZR fx + / 2) cx) as [Hx' | Hx'].
      * destruct (Rlt_dec (IZR fx + / 2) cy); [lia | lra].
      * destruct (Rlt_dec (IZR fx + / 2) cy); [destruct (Z.even fx); lia |].
        destruct (Z.even fx); lia.
  - subst cx cy fx fy. fold (ToUint8Clamp x). fold (ToUint8Clamp y).
    destruct (ToUint8Clamp_cases x) as [[-> _] | [-> _]];
      destruct (ToUint8Clamp_cases y) as [[-> _] | [-> _]]; cbv zeta; lia.
Qed.

(** A number within half a unit of a byte is stored as that byte. *)
Lemma ToUint8Clamp_nearest (x : R) (z : Z) :
  0 <= x <= 255 -> IZR z - / 2 < x < IZR z + / 2 -> ToUint8Clamp x = z.
Proof.
  intros [Hlo Hhi] [Hz1 Hz2]. unfold ToUint8Clamp.
  rewrite (Rmax_left x 0) by exact Hlo. rewrite (Rmin_left x 255) by exact Hhi.
  destruct (Rlt_dec x (IZR z)) as [Hlt | Hge].
  - assert (Zfloor x = (z - 1)%Z) as ->.
    { apply Zfloor_eq. rewrite minus_IZR. lra. }
    rewrite minus_IZR.
    destruct (Rlt_dec x (IZR z - 1 + / 2)); [lra |].
    destruct (Rlt_dec (IZR z - 1 + / 2) x); [lia | lra].
  - assert (Zfloor x = z) as -> by (apply Zfloor_eq; lra).
    destruct (Rlt_dec x (IZR z + / 2)); [reflexivity | lra].
Qed.

End JsFacts.

(* ------------------------------------------------------------------ *)
(** * The pixel loop *)

(** Facts about [e mod 4], handed to [lia]. *)
Ltac mod4 e :=
  pose proof (Nat.div_mod_eq e 4); pose proof (Nat.mod_upper_bound e 4).

Section PixelLoop.

Variable targetColor : RGBColor.
Variables tolerance smoothRange : number.

Lemma pixelStep_insert (i : nat) (data : list Z) :
  pixelStep targetColor tolerance smoothRange i data =
  <[(i + 3)%nat := pixelAlpha targetColor tolerance smoothRange data i]> data.
Proof.
  unfold pixelStep, pixelAlpha, alphaValue, store.
  destruct (data !! i), (data !! (i + 1)%nat), (data !! (i + 2)%nat);
    try reflexivity.
  destruct (lte _ tolerance); [reflexivity |].
  destruct (lte _ (tolerance + smoothRange)); reflexivity.
Qed.

Lemma pixelStep_length (i : nat) (data : list Z) :
  length (pixelStep targetColor tolerance smoothRange i data) = length data.
Proof. rewrite pixelStep_insert. apply length_insert. Qed.

Lemma pixelStep_lookup_ne (i j : nat) (data : list Z) :
  j <> (i + 3)%nat ->
  pixelStep targetColor tolerance smoothRange i data !! j = data !! j.
Proof.
  intros Hne. rewrite pixelStep_insert. apply list_lookup_insert_ne. lia.
Qed.

(** A later iteration reads only channels the earlier ones left alone. *)
Lemma pixelAlpha_step (i p : nat) (data : list Z) :
  (i + 4 <= p)%nat ->
  pixelAlpha targetColor tolerance smoothRange
    (pixelStep targetColor tolerance smoothRange i data) p =
  pixelAlpha targetColor tolerance smoothRange data p.
Proof.
  intros Hp. unfold pixelAlpha.
  rewrite !pixelStep_lookup_ne by lia. reflexivity.
Qed.

Lemma pixelLoop_length (fuel i : nat) (data : list Z) :
  length (pixelLoop targetColor tolerance smoothRange fuel i data) =
  length data.
Proof.
  revert i data. induction fuel as [| fuel IH]; intros i data; simpl.
  - reflexivity.
  - destruct (decide (i < length data)%nat); [| reflexivity].
    rewrite IH. apply pixelStep_length.
Qed.

(** The loop invariant, read at an arbitrary offset [j]: alpha slots from
    [i + 3] on, four apart, hold the byte computed from the pixel's own
    channels; every other byte is untouched.  The fuel hypothesis makes the
    loop leave through its own guard. *)
Lemma pixelLoop_lookup (fuel i j : nat) (data : list Z) :
  (length data <= i + 4 * fuel)%nat ->
  pixelLoop targetColor tolerance smoothRange fuel i data !! j =
  if decide (i + 3 <= j /\ (j - (i + 3)) mod 4 = 0 /\ j < length data)%nat
  then Some (pixelAlpha targetColor tolerance smoothRange data (j - 3))
  else data !! j.
Proof.
  revert i data.
  induction fuel as [| fuel IH]; intros i data Hfuel; cbn [pixelLoop].
  - destruct (decide _) as [Hc | _]; [lia | reflexivity].
  - destruct (decide (i < length data)%nat) as [Hi | Hi].
    + rewrite IH by (rewrite pixelStep_length; lia).
      rewrite pixelStep_length.
      destruct (decide (j = i + 3)%nat) as [-> | Hj].
      * destruct (decide (i + 4 + 3 <= _ /\ _ /\ _)%nat) as [Hc | _]; [lia |].
        rewrite pixelStep_insert.
        replace (i + 3 - (i + 3))%nat with 0%nat by lia.
        destruct (decide (i + 3 <= _ /\ _ /\ _)%nat) as [Hc | Hc].
        -- rewrite list_lookup_insert_eq by lia.
           replace (i + 3 - 3)%nat with i by lia. reflexivity.
        -- rewrite list_insert_ge; [reflexivity |].
           destruct (decide (i + 3 < length data)%nat) as [Hlt | Hge];
             [| lia].
           exfalso. apply Hc. split; [lia |]. split; [reflexivity | exact Hlt].
      * rewrite pixelStep_lookup_ne by exact Hj.
        mod4 (j - (i + 3))%nat. mod4 (j - (i + 4 + 3))%nat.
        destruct (decide (i + 4 + 3 <= _ /\ _ /\ _)%nat) as [Hc | Hc];
          destruct (decide (i + 3 <= _ /\ _ /\ _)%nat) as [Hc' | Hc'];
          try reflexivity; try (exfalso; lia).
        rewrite pixelAlpha_step by lia. reflexivity.
    + destruct (decide _) as [Hc | _]; [lia | reflexivity].
Qed.

(** Fuel beyond what the guard needs changes nothing. *)
Lemma pixelLoop_fuel (fuel fuel' i : nat) (data : list Z) :
  (length data <= i + 4 * fuel)%nat -> (fuel <= fuel')%nat ->
  pixelLoop targetColor tolerance smoothRange fuel' i data =
  pixelLoop targetColor tolerance smoothRange fuel i data.
Proof.
  revert fuel' i data.
  induction fuel as [| fuel IH]; intros fuel' i data Hlen Hle.
  - destruct fuel' as [| fuel']; cbn [pixelLoop]; [reflexivity |].
    destruct (decide (i < length data)%nat); [lia | reflexivity].
  - destruct fuel' as [| fuel']; [lia |]. cbn [pixelLoop].
    destruct (decide (i < length data)%nat); [| reflexivity].
    apply IH; [rewrite pixelStep_length |]; lia.
Qed.

End PixelLoop.

(* ------------------------------------------------------------------ *)
(** * Pixels of a buffer and the effect of [makeTransparent] on them *)

Lemma getPixel_Some (data : list Z) (k : nat) (p : Pixel) :
  getPixel data k = Some p ->
  data !! (4 * k)%nat = Some (red p) /\
  data !! (4 * k + 1)%nat = Some (green p) /\
  data !! (4 * k + 2)%nat = Some (blue p) /\
  data !! (4 * k + 3)%nat = Some (alpha p).
Proof.
  unfold getPixel. intros H.
  destruct (data !! (4 * k)%nat), (data !! (4 * k + 1)%nat),
    (data !! (4 * k + 2)%nat), (data !! (4 * k + 3)%nat); try discriminate.
  injection H as <-. auto.
Qed.

Lemma makeTransparent_unfold ctx width height targetColor tolerance smoothness :
  makeTransparent ctx width height targetColor tolerance smoothness =
  pixelLoop targetColor tolerance (smoothRangeOf smoothness)
    (length (Canvas.getImageData ctx 0 0 width height)) 0
    (Canvas.getImageData ctx 0 0 width height).
Proof. reflexivity. Qed.

Lemma makeTransparent_length ctx width height targetColor tolerance smoothness :
  length (makeTransparent ctx width height targetColor tolerance smoothness) =
  length (Canvas.getImageData ctx 0 0 width height).
Proof. apply pixelLoop_length. Qed.

(** Every byte of the result: alpha slots are recomputed, the rest is the
    input. *)
Lemma makeTransparent_lookup
    ctx width height targetColor tolerance smoothness (j : nat) :
  makeTransparent ctx width height targetColor tolerance smoothness !! j =
  if decide (j mod 4 = 3 /\
             j < length (Canvas.getImageData ctx 0 0 width height))%nat
  then Some (pixelAlpha targetColor tolerance (smoothRangeOf smoothness)
               (Canvas.getImageData ctx 0 0 width height) (j - 3))
  else Canvas.getImageData ctx 0 0 width height !! j.
Proof.
  rewrite makeTransparent_unfold, pixelLoop_lookup by lia.
  mod4 j. mod4 (j - (0 + 3))%nat.
  destruct (decide (0 + 3 <= _ /\ _ /\ _)%nat) as [Hc | Hc];
    destruct (decide (j mod 4 = 3 /\ _)%nat) as [Hc' | Hc'];
    try reflexivity; exfalso; lia.
Qed.

Lemma makeTransparent_channel
    ctx width height targetColor tolerance smoothness (j : nat) :
  (j mod 4 <> 3)%nat ->
  makeTransparent ctx width height targetColor tolerance smoothness !! j =
  Canvas.getImageData ctx 0 0 width height !! j.
Proof.
  intros Hj. rewrite makeTransparent_lookup.
  destruct (decide _) as [[Hc _] | _]; [contradiction | reflexivity].
Qed.

(** Pixel [k] after [makeTransparent]: same colour bytes, and the alpha the
    classification of its distance yields. *)
Lemma makeTransparent_getPixel
    ctx width height targetColor tolerance smoothness k p :
  getPixel (Canvas.getImageData ctx 0 0 width height) k = Some p ->
  getPixel (makeTransparent ctx width height targetColor tolerance smoothness)
    k =
  Some (withAlpha p
          (ToUint8Clamp
             (alphaValue tolerance (smoothRangeOf smoothness)
                (getColorDistance (colorOf p) targetColor)))).
Proof.
  intros Hp. apply getPixel_Some in Hp as (Hr & Hg & Hb & Ha).
  unfold getPixel.
  mod4 (4 * k)%nat. mod4 (4 * k + 1)%nat. mod4 (4 * k + 2)%nat.
  mod4 (4 * k + 3)%nat.
  rewrite !makeTransparent_channel by lia.
  rewrite makeTransparent_lookup, Hr, Hg, Hb.
  apply lookup_lt_Some in Ha.
  destruct (decide _) as [_ | Hc]; [| exfalso; lia].
  unfold pixelAlpha.
  replace (4 * k + 3 - 3)%nat with (4 * k)%nat by lia.
  replace (4 * k + 3 - 3 + 1)%nat with (4 * k + 1)%nat by lia.
  replace (4 * k + 3 - 3 + 2)%nat with (4 * k + 2)%nat by lia.
  rewrite Hr, Hg, Hb. reflexivity.
Qed.

(* ------------------------------------------------------------------ *)
(** * The classification as a function of the distance *)

Section Classification.

Variables tolerance smoothRange : number.

Lemma alphaValue_transparent (d : number) :
  d <= tolerance -> alphaValue tolerance smoothRange d = 0.
Proof.
  intros Hd. unfold alphaValue, lte.
  destruct (Rle_dec d tolerance); [reflexivity | contradiction].
Qed.

Lemma alphaValue_band (d : number) :
  tolerance < d -> d <= tolerance + smoothRange ->
  alphaValue tolerance smoothRange d =
  Math_min 255 (Math_max 0 (((d - tolerance) / smoothRange) * 255)).
Proof.
  intros H1 H2. unfold alphaValue, lte.
  destruct (Rle_dec d tolerance); [lra |].
  destruct (Rle_dec d (tolerance + smoothRange)); [reflexivity | contradiction].
Qed.

Lemma alphaValue_opaque (d : number) :
  0 <= smoothRange -> tolerance + smoothRange < d ->
  alphaValue tolerance smoothRange d = 255.
Proof.
  intros Hs Hd. unfold alphaValue, lte.
  destruct (Rle_dec d tolerance); [lra |].
  destruct (Rle_dec d (tolerance + smoothRange)); [lra | reflexivity].
Qed.

Lemma alphaValue_range (d : number) :
  0 <= alphaValue tolerance smoothRange d <= 255.
Proof.
  unfold alphaValue, lte, Math_min, Math_max.
  destruct (Rle_dec d tolerance); [lra |].
  destruct (Rle_dec d (tolerance + smoothRange)); [| lra].
  split.
  - apply Rmin_glb; [lra | apply Rmax_l].
  - apply Rmin_l.
Qed.

Lemma alphaValue_mono (d1 d2 : number) :
  0 < smoothRange -> d1 <= d2 ->
  alphaValue tolerance smoothRange d1 <= alphaValue tolerance smoothRange d2.
Proof.
  intros Hs Hd.
  pose proof (alphaValue_range d1) as [_ Hhi].
  pose proof (alphaValue_range d2) as [Hlo _].
  unfold alphaValue, lte, Math_min, Math_max in *.
  destruct (Rle_dec d1 tolerance) as [H1 | H1]; [exact Hlo |].
  destruct (Rle_dec d2 tolerance) as [H2 | H2]; [lra |].
  destruct (Rle_dec d2 (tolerance + smoothRange)) as [H2' | H2'];
    [| exact Hhi].
  destruct (Rle_dec d1 (tolerance + smoothRange)) as [H1' | H1']; [| lra].
  apply Rle_min_compat_l, Rle_max_compat_l.
  apply Rmult_le_compat_r; [lra |].
  apply Rmult_le_compat_r; [| lra].
  left. apply Rinv_0_lt_compat. exact Hs.
Qed.

End Classification.

Lemma smoothRangeOf_ge_1 (smoothness : option number) :
  1 <= smoothRangeOf smoothness.
Proof. apply Rmax_r. Qed.

Lemma smoothRangeOf_Some (s : number) : smoothRangeOf (Some s) = Rmax s 1.
Proof. reflexivity. Qed.

Lemma smoothRangeOf_None : smoothRangeOf None = Rmax 20 1.
Proof. reflexivity. Qed.

Lemma smoothRangeOf_IZR (s : Z) :
  (1 <= s)%Z -> smoothRangeOf (Some (IZR s)) = IZR s.
Proof.
  intros Hs. apply IZR_le in Hs. apply Rmax_left. exact Hs.
Qed.

(* ------------------------------------------------------------------ *)
(** * Colour distance *)

Section Distance.

Lemma sum_squares_nonneg (x y z : R) : 0 <= x ^ 2 + y ^ 2 + z ^ 2.
Proof. nra. Qed.

Lemma getColorDistance_nonneg (c1 c2 : RGBColor) : 0 <= getColorDistance c1 c2.
Proof. apply sqrt_pos. Qed.

Lemma getColorDistance_sym (c1 c2 : RGBColor) :
  getColorDistance c1 c2 = getColorDistance c2 c1.
Proof.
  unfold getColorDistance, Math_sqrt, Math_pow. f_equal. ring.
Qed.

Lemma getColorDistance_same (c : RGBColor) : getColorDistance c c = 0.
Proof.
  unfold getColorDistance, Math_sqrt, Math_pow.
  replace (_ + _ + _) with 0 by ring. apply sqrt_0.
Qed.

(** A distance whose square is known. *)
Lemma getColorDistance_eq (c1 c2 : RGBColor) (d : R) :
  0 <= d ->
  (r c1 - r c2) ^ 2 + (g c1 - g c2) ^ 2 + (b c1 - b c2) ^ 2 = d * d ->
  getColorDistance c1 c2 = d.
Proof.
  intros Hd Hsq. unfold getColorDistance, Math_sqrt, Math_pow.
  rewrite Hsq. apply sqrt_square. exact Hd.
Qed.

Lemma getColorDistance_gt (c1 c2 : RGBColor) (d : R) :
  0 <= d ->
  d * d < (r c1 - r c2) ^ 2 + (g c1 - g c2) ^ 2 + (b c1 - b c2) ^ 2 ->
  d < getColorDistance c1 c2.
Proof.
  intros Hd Hsq. unfold getColorDistance, Math_sqrt, Math_pow.
  rewrite <- (sqrt_square d Hd) at 1.
  apply sqrt_lt_1_alt. split; [nra | exact Hsq].
Qed.

Lemma getColorDistance_lt (c1 c2 : RGBColor) (d : R) :
  0 <= d ->
  (r c1 - r c2) ^ 2 + (g c1 - g c2) ^ 2 + (b c1 - b c2) ^ 2 < d * d ->
  getColorDistance c1 c2 < d.
Proof.
  intros Hd Hsq. unfold getColorDistance, Math_sqrt, Math_pow.
  rewrite <- (sqrt_square d Hd) at 1.
  apply sqrt_lt_1_alt. split; [apply sum_squares_nonneg | exact Hsq].
Qed.

End Distance.

(* ------------------------------------------------------------------ *)
(** * The transparency compositor: per-pixel contract

    In the statements below the input buffer is
    [Canvas.getImageData ctx 0 0 width height] and [d] is the distance
    [getColorDistance (colorOf p) targetColor] of a pixel [p] of it. *)

(** C1.  A pixel whose distance to the target colour is at most the
    tolerance comes out with alpha 0 and with its red, green and blue bytes
    as they were. *)
Theorem makeTransparent_within_tolerance
    ctx width height targetColor tolerance smoothness k p :
  getPixel (Canvas.getImageData ctx 0 0 width height) k = Some p ->
  getColorDistance (colorOf p) targetColor <= tolerance ->
  getPixel (makeTransparent ctx width height targetColor tolerance smoothness)
    k =
  Some (mkPixel (red p) (green p) (blue p) 0).
Proof.
  intros Hp Hd.
  rewrite (makeTransparent_getPixel _ _ _ _ _ _ _ _ Hp).
  rewrite alphaValue_transparent by exact Hd.
  rewrite ToUint8Clamp_0. reflexivity.
Qed.

Lemma makeTransparent_within_tolerance_witness :
  getPixel
    (Canvas.getImageData (Canvas.mk 1 1 [255; 255; 255; 255]%Z) 0 0 1 1) 0 =
    Some (mkPixel 255 255 255 255) /\
  getColorDistance (colorOf (mkPixel 255 255 255 255)) (mkRGB 255 255 255)
    <= 20 /\
  getPixel
    (makeTransparent (Canvas.mk 1 1 [255; 255; 255; 255]%Z) 1 1
       (mkRGB 255 255 255) 20 (Some 30)) 0 =
    Some (mkPixel 255 255 255 0).
Proof.
  assert (getColorDistance (colorOf (mkPixel 255 255 255 255))
            (mkRGB 255 255 255) <= 20) as Hd.
  { rewrite (getColorDistance_eq _ _ 0); cbn; lra. }
  split; [reflexivity |]. split; [exact Hd |].
  exact (makeTransparent_within_tolerance
           (Canvas.mk 1 1 [255; 255; 255; 255]%Z) 1 1 (mkRGB 255 255 255) 20
           (Some 30) 0%nat (mkPixel 255 255 255 255) eq_refl Hd).
Defined.

(** C2.  For an integer [smoothness], a pixel whose distance [d] lies in the
    band [tolerance < d <= tolerance + smoothness] is assigned the alpha
    [clamp(((d - tolerance) / smoothness) * 255, 0, 255)], which the byte
    buffer stores rounded to the nearest integer; at
    [d = tolerance + smoothness] the stored alpha is exactly 255. *)
Theorem makeTransparent_falloff
    ctx width height targetColor tolerance (smoothness : Z) k p :
  getPixel (Canvas.getImageData ctx 0 0 width height) k = Some p ->
  tolerance < getColorDistance (colorOf p) targetColor ->
  getColorDistance (colorOf p) targetColor <= tolerance + IZR smoothness ->
  getPixel
    (makeTransparent ctx width height targetColor tolerance
       (Some (IZR smoothness))) k =
  Some (withAlpha p
          (ToUint8Clamp
             (clamp
                (((getColorDistance (colorOf p) targetColor - tolerance)
                  / IZR smoothness) * 255) 0 255))) /\
  (getColorDistance (colorOf p) targetColor = tolerance + IZR smoothness ->
   getPixel
     (makeTransparent ctx width height targetColor tolerance
        (Some (IZR smoothness))) k =
   Some (withAlpha p 255)).
Proof.
  intros Hp Hlo Hhi.
  set (d := getColorDistance (colorOf p) targetColor) in *.
  assert (0 < IZR smoothness) as Hs by lra.
  assert (1 <= smoothness)%Z as Hs1 by (apply lt_IZR in Hs; lia).
  rewrite (makeTransparent_getPixel _ _ _ _ _ _ _ _ Hp). fold d.
  rewrite smoothRangeOf_IZR by exact Hs1.
  rewrite alphaValue_band by assumption.
  split; [reflexivity |].
  intros Heq. do 2 f_equal.
  replace ((d - tolerance) / IZR smoothness * 255) with 255
    by (rewrite Heq; field; lra).
  unfold Math_min, Math_max.
  rewrite (Rmax_right 0 255) by lra. rewrite (Rmin_left 255 255) by lra.
  apply ToUint8Clamp_255.
Qed.

(** Tolerance 20, smoothness 30, a pixel at distance 50 from white. *)
Lemma makeTransparent_falloff_witness :
  getPixel
    (Canvas.getImageData (Canvas.mk 1 1 [225; 215; 255; 7]%Z) 0 0 1 1) 0 =
    Some (mkPixel 225 215 255 7) /\
  20 < getColorDistance (colorOf (mkPixel 225 215 255 7)) (mkRGB 255 255 255) /\
  getColorDistance (colorOf (mkPixel 225 215 255 7)) (mkRGB 255 255 255)
    <= 20 + IZR 30 /\
  getPixel
    (makeTransparent (Canvas.mk 1 1 [225; 215; 255; 7]%Z) 1 1
       (mkRGB 255 255 255) 20 (Some (IZR 30))) 0 =
    Some (mkPixel 225 215 255 255).
Proof.
  assert (getColorDistance (colorOf (mkPixel 225 215 255 7))
            (mkRGB 255 255 255) = 50) as Hd.
  { apply getColorDistance_eq; cbn; lra. }
  assert (20 < getColorDistance (colorOf (mkPixel 225 215 255 7))
                 (mkRGB 255 255 255)) as Hlo by (rewrite Hd; lra).
  assert (getColorDistance (colorOf (mkPixel 225 215 255 7))
            (mkRGB 255 255 255) <= 20 + IZR 30) as Hhi by (rewrite Hd; lra).
  split; [reflexivity |]. split; [exact Hlo |]. split; [exact Hhi |].
  apply (makeTransparent_falloff
           (Canvas.mk 1 1 [225; 215; 255; 7]%Z) 1 1 (mkRGB 255 255 255) 20 30
           0%nat (mkPixel 225 215 255 7) eq_refl Hlo Hhi).
  rewrite Hd. lra.
Defined.

(** With [smoothness = 0] the falloff still spans one unit: a pixel at
    distance [sqrt 2] from the target, with [tolerance = 1], is beyond
    [tolerance + smoothness] and yet is stored with alpha 106, not 255. *)
Lemma makeTransparent_beyond_band_counterexample :
  getPixel (Canvas.getImageData (Canvas.mk 1 1 [1; 1; 0; 255]%Z) 0 0 1 1) 0 =
    Some (mkPixel 1 1 0 255) /\
  1 + 0 < getColorDistance (colorOf (mkPixel 1 1 0 255)) (mkRGB 0 0 0) /\
  getPixel
    (makeTransparent (Canvas.mk 1 1 [1; 1; 0; 255]%Z) 1 1 (mkRGB 0 0 0) 1
       (Some 0)) 0 = Some (mkPixel 1 1 0 106) /\
  getPixel
    (makeTransparent (Canvas.mk 1 1 [1; 1; 0; 255]%Z) 1 1 (mkRGB 0 0 0) 1
       (Some 0)) 0 <> Some (mkPixel 1 1 0 255).
Proof.
  assert (1414 / 1000 <
          getColorDistance (colorOf (mkPixel 1 1 0 255)) (mkRGB 0 0 0)) as Hlo.
  { apply getColorDistance_gt; cbn; lra. }
  assert (getColorDistance (colorOf (mkPixel 1 1 0 255)) (mkRGB 0 0 0) <
          1415 / 1000) as Hhi.
  { apply getColorDistance_lt; cbn; lra. }
  assert (getPixel
            (makeTransparent (Canvas.mk 1 1 [1; 1; 0; 255]%Z) 1 1
               (mkRGB 0 0 0) 1 (Some 0)) 0 = Some (mkPixel 1 1 0 106)) as Hout.
  { rewrite (makeTransparent_getPixel _ _ _ _ _ _ 0%nat (mkPixel 1 1 0 255))
      by reflexivity.
    set (d := getColorDistance _ _) in *.
    assert (smoothRangeOf (Some 0) = 1) as ->.
    { rewrite smoothRangeOf_Some. apply Rmax_right. lra. }
    rewrite alphaValue_band by lra.
    unfold Math_min, Math_max.
    rewrite Rmax_right by lra. rewrite Rmin_right by lra.
    unfold withAlpha. cbn. do 2 f_equal.
    apply ToUint8Clamp_nearest; lra. }
  split; [reflexivity |]. split; [lra |]. split; [exact Hout |].
  rewrite Hout. discriminate.
Qed.

(** C3, amended.  A pixel whose distance exceeds
    [tolerance + max(smoothness, 1)] comes out with alpha exactly 255,
    whatever alpha it had. *)
Theorem makeTransparent_beyond_band
    ctx width height targetColor tolerance smoothness k p :
  getPixel (Canvas.getImageData ctx 0 0 width height) k = Some p ->
  tolerance + Rmax (default 20 smoothness) 1
    < getColorDistance (colorOf p) targetColor ->
  getPixel (makeTransparent ctx width height targetColor tolerance smoothness)
    k =
  Some (mkPixel (red p) (green p) (blue p) 255).
Proof.
  intros Hp Hd.
  rewrite (makeTransparent_getPixel _ _ _ _ _ _ _ _ Hp).
  pose proof (smoothRangeOf_ge_1 smoothness) as Hs.
  rewrite alphaValue_opaque; [| lra | exact Hd].
  rewrite ToUint8Clamp_255. reflexivity.
Qed.

Lemma makeTransparent_beyond_band_witness :
  getPixel (Canvas.getImageData (Canvas.mk 1 1 [100; 0; 0; 0]%Z) 0 0 1 1) 0 =
    Some (mkPixel 100 0 0 0) /\
  1 + Rmax (default 20 (Some 0)) 1
    < getColorDistance (colorOf (mkPixel 100 0 0 0)) (mkRGB 0 0 0) /\
  getPixel
    (makeTransparent (Canvas.mk 1 1 [100; 0; 0; 0]%Z) 1 1 (mkRGB 0 0 0) 1
       (Some 0)) 0 = Some (mkPixel 100 0 0 255).
Proof.
  assert (1 + Rmax (default 20 (Some 0)) 1
          < getColorDistance (colorOf (mkPixel 100 0 0 0)) (mkRGB 0 0 0))
    as Hd.
  { rewrite (getColorDistance_eq _ _ 100) by (cbn; lra).
    cbn. rewrite Rmax_right; lra. }
  split; [reflexivity |]. split; [exact Hd |].
  exact (makeTransparent_beyond_band
           (Canvas.mk 1 1 [100; 0; 0; 0]%Z) 1 1 (mkRGB 0 0 0) 1 (Some 0)
           0%nat (mkPixel 100 0 0 0) eq_refl Hd).
Defined.

(** C4.  The stored alpha is monotone in the distance: of two pixels
    classified against the same target colour, tolerance and smoothness, the
    one nearer to the target never gets the larger alpha. *)
Theorem makeTransparent_alpha_monotone
    ctx1 width1 height1 ctx2 width2 height2
    targetColor tolerance smoothness k1 k2 p1 p2 :
  getPixel (Canvas.getImageData ctx1 0 0 width1 height1) k1 = Some p1 ->
  getPixel (Canvas.getImageData ctx2 0 0 width2 height2) k2 = Some p2 ->
  getColorDistance (colorOf p1) targetColor
    <= getColorDistance (colorOf p2) targetColor ->
  exists a1 a2 : Z,
    getPixel
      (makeTransparent ctx1 width1 height1 targetColor tolerance smoothness)
      k1 = Some (withAlpha p1 a1) /\
    getPixel
      (makeTransparent ctx2 width2 height2 targetColor tolerance smoothness)
      k2 = Some (withAlpha p2 a2) /\
    (a1 <= a2)%Z.
Proof.
  intros Hp1 Hp2 Hd.
  eexists _, _.
  split; [exact (makeTransparent_getPixel _ _ _ _ _ _ _ _ Hp1) |].
  split; [exact (makeTransparent_getPixel _ _ _ _ _ _ _ _ Hp2) |].
  apply ToUint8Clamp_mono, alphaValue_mono; [| exact Hd].
  pose proof (smoothRangeOf_ge_1 smoothness). lra.
Qed.

(** Two pixels of one 2 by 1 image, at distances 0 and 50 from white. *)
Lemma makeTransparent_alpha_monotone_witness :
  exists a1 a2 : Z,
    getPixel
      (makeTransparent
         (Canvas.mk 2 1 [255; 255; 255; 9; 225; 215; 255; 9]%Z) 2 1
         (mkRGB 255 255 255) 20 (Some 30)) 0 =
      Some (withAlpha (mkPixel 255 255 255 9) a1) /\
    getPixel
      (makeTransparent
         (Canvas.mk 2 1 [255; 255; 255; 9; 225; 215; 255; 9]%Z) 2 1
         (mkRGB 255 255 255) 20 (Some 30)) 1 =
      Some (withAlpha (mkPixel 225 215 255 9) a2) /\
    (a1 <= a2)%Z.
Proof.
  apply (makeTransparent_alpha_monotone
           (Canvas.mk 2 1 [255; 255; 255; 9; 225; 215; 255; 9]%Z) 2 1
           (Canvas.mk 2 1 [255; 255; 255; 9; 225; 215; 255; 9]%Z) 2 1
           (mkRGB 255 255 255) 20 (Some 30) 0%nat 1%nat
           (mkPixel 255 255 255 9) (mkPixel 225 215 255 9) eq_refl eq_refl).
  rewrite (getColorDistance_eq _ _ 0) by (cbn; lra).
  rewrite (getColorDistance_eq _ _ 50) by (cbn; lra).
  lra.
Defined.

(** C5.  Only alpha bytes are written: the buffer keeps its length and, for
    every pixel index [k], the bytes at [4k], [4k + 1] and [4k + 2] are the
    input's, whatever the target colour, tolerance and smoothness. *)
Theorem makeTransparent_preserves_rgb
    ctx width height targetColor tolerance smoothness (k : nat) :
  let data := Canvas.getImageData ctx 0 0 width height in
  let out := makeTransparent ctx width height targetColor tolerance smoothness in
  length out = length data /\
  out !! (4 * k)%nat = data !! (4 * k)%nat /\
  out !! (4 * k + 1)%nat = data !! (4 * k + 1)%nat /\
  out !! (4 * k + 2)%nat = data !! (4 * k + 2)%nat.
Proof.
  cbv zeta. split; [apply makeTransparent_length |].
  mod4 (4 * k)%nat. mod4 (4 * k + 1)%nat. mod4 (4 * k + 2)%nat.
  repeat split; apply makeTransparent_channel; lia.
Qed.

(** C6.  [smoothness = 0] is treated as [smoothness = 1]; for every
    tolerance and every smoothness (in particular the non-negative ones) the
    falloff divides by [max(smoothness, 1)], which is never zero, and every
    pixel of the buffer is given an alpha byte. *)
Theorem makeTransparent_smoothness_zero
    ctx width height targetColor tolerance (smoothness : number) k p :
  getPixel (Canvas.getImageData ctx 0 0 width height) k = Some p ->
  makeTransparent ctx width height targetColor tolerance (Some 0) =
    makeTransparent ctx width height targetColor tolerance (Some 1) /\
  Math_max smoothness 1 <> 0 /\
  exists a : Z,
    (0 <= a <= 255)%Z /\
    a = ToUint8Clamp
          (alphaValue tolerance (Math_max smoothness 1)
             (getColorDistance (colorOf p) targetColor)) /\
    getPixel
      (makeTransparent ctx width height targetColor tolerance
         (Some smoothness)) k = Some (withAlpha p a).
Proof.
  intros Hp. split; [| split].
  - rewrite !makeTransparent_unfold, !smoothRangeOf_Some.
    rewrite (Rmax_right 0 1) by lra. rewrite (Rmax_left 1 1) by lra.
    reflexivity.
  - pose proof (smoothRangeOf_ge_1 (Some smoothness)) as Hs.
    rewrite smoothRangeOf_Some in Hs. unfold Math_max. lra.
  - eexists. split; [apply ToUint8Clamp_range |]. split; [reflexivity |].
    exact (makeTransparent_getPixel _ _ _ _ _ _ _ _ Hp).
Qed.

Lemma makeTransparent_smoothness_zero_witness :
  makeTransparent (Canvas.mk 1 1 [1; 1; 0; 255]%Z) 1 1 (mkRGB 0 0 0) 1
    (Some 0) =
  makeTransparent (Canvas.mk 1 1 [1; 1; 0; 255]%Z) 1 1 (mkRGB 0 0 0) 1
    (Some 1) /\
  Math_max 0 1 <> 0.
Proof.
  pose proof (makeTransparent_smoothness_zero
                (Canvas.mk 1 1 [1; 1; 0; 255]%Z) 1 1 (mkRGB 0 0 0) 1 0 0%nat
                (mkPixel 1 1 0 255) eq_refl) as (Heq & Hne & _).
  split; [exact Heq | exact Hne].
Defined.

(** C10.  Leaving [smoothness] out is the same as passing 20, and 20 is then
    the divisor of the falloff. *)
Theorem makeTransparent_default_smoothness
    ctx width height targetColor tolerance :
  makeTransparent ctx width height targetColor tolerance None =
    makeTransparent ctx width height targetColor tolerance (Some 20) /\
  smoothRangeOf None = 20.
Proof.
  split; [reflexivity |].
  rewrite smoothRangeOf_None. apply Rmax_left. lra.
Qed.

(* ------------------------------------------------------------------ *)
(** * The background detector *)

Lemma getImageData_1x1 (ctx : Canvas.t) (x y : Z) :
  Canvas.getImageData ctx x y 1 1 = Canvas.pixel ctx x y.
Proof.
  unfold Canvas.getImageData. change (seqZ 0 1) with [0%Z]. simpl.
  rewrite !Z.add_0_r, !app_nil_r. reflexivity.
Qed.

Lemma Math_round_mean5 (z : Z) :
  Math_round
    ((0 + IZR z + IZR z + IZR z + IZR z + IZR z) / INR 5) = IZR z.
Proof.
  replace ((0 + IZR z + IZR z + IZR z + IZR z + IZR z) / INR 5)
    with (IZR z) by (cbn; field).
  apply Math_round_IZR.
Qed.

(** [Math.round] yields the integer nearest to its argument. *)
Lemma Math_round_nearest (x : number) :
  exists z : Z, Math_round x = IZR z /\ IZR z - / 2 <= x < IZR z + / 2.
Proof.
  unfold Math_round. eexists. split; [reflexivity |].
  pose proof (Zfloor_bound (x + / 2)) as [H0 H1]. lra.
Qed.

(** C7.  The detector returns, per channel, the mean of the five sampled
    pixels [(0,0)], [(width-1,0)], [(0,height-1)], [(width-1,height-1)] and
    [(width/2,0)] (integer division), rounded to the nearest integer: each
    channel of the result is an integer within one half of the mean, not the
    mean cut down to an integer.  Alpha plays no part.  On an image of one
    colour, of any size from 1 by 1 on, it returns that colour. *)
Theorem detectBackgroundColor_samples
    (ctx : Canvas.t) (width height : Z) (cr cg cb : Z) :
  let sample (x y : Z) (c : nat) : number :=
    IZR (Canvas.pixel ctx x y !!! c) in
  let mean (c : nat) : number :=
    (sample 0%Z 0%Z c + sample (width - 1)%Z 0%Z c
     + sample 0%Z (height - 1)%Z c + sample (width - 1)%Z (height - 1)%Z c
     + sample (width / 2)%Z 0%Z c) / 5 in
  (exists zr zg zb : Z,
     detectBackgroundColor ctx width height =
       mkRGB (IZR zr) (IZR zg) (IZR zb) /\
     IZR zr - / 2 <= mean 0%nat < IZR zr + / 2 /\
     IZR zg - / 2 <= mean 1%nat < IZR zg + / 2 /\
     IZR zb - / 2 <= mean 2%nat < IZR zb + / 2) /\
  ((1 <= width)%Z -> (1 <= height)%Z ->
   uniformImage ctx width height cr cg cb ->
   detectBackgroundColor ctx width height =
     mkRGB (IZR cr) (IZR cg) (IZR cb)).
Proof.
  cbv zeta. split.
  - unfold detectBackgroundColor. rewrite !getImageData_1x1.
    cbn [foldl length]. unfold load.
    assert (INR 5 = 5) as -> by (cbn; lra).
    set (s1 := Canvas.pixel ctx 0 0).
    set (s2 := Canvas.pixel ctx (width - 1) 0).
    set (s3 := Canvas.pixel ctx 0 (height - 1)).
    set (s4 := Canvas.pixel ctx (width - 1) (height - 1)).
    set (s5 := Canvas.pixel ctx (width / 2) 0).
    destruct (Math_round_nearest
                ((0 + IZR (s1 !!! 0%nat) + IZR (s2 !!! 0%nat)
                  + IZR (s3 !!! 0%nat) + IZR (s4 !!! 0%nat)
                  + IZR (s5 !!! 0%nat)) / 5)) as (zr & -> & Hr).
    destruct (Math_round_nearest
                ((0 + IZR (s1 !!! 1%nat) + IZR (s2 !!! 1%nat)
                  + IZR (s3 !!! 1%nat) + IZR (s4 !!! 1%nat)
                  + IZR (s5 !!! 1%nat)) / 5)) as (zg & -> & Hg).
    destruct (Math_round_nearest
                ((0 + IZR (s1 !!! 2%nat) + IZR (s2 !!! 2%nat)
                  + IZR (s3 !!! 2%nat) + IZR (s4 !!! 2%nat)
                  + IZR (s5 !!! 2%nat)) / 5)) as (zb & -> & Hb).
    exists zr, zg, zb. split; [reflexivity |].
    repeat split; lra.
  - intros Hw Hh Hu.
    assert (0 <= width / 2 < width)%Z as Hmid.
    { split; [apply Z.div_pos; lia | apply Z.div_lt_upper_bound; lia]. }
    unfold detectBackgroundColor.
    destruct (Hu 0 0)%Z as [a1 ->]; [lia | lia |].
    destruct (Hu (width - 1) 0)%Z as [a2 ->]; [lia | lia |].
    destruct (Hu 0 (height - 1))%Z as [a3 ->]; [lia | lia |].
    destruct (Hu (width - 1) (height - 1))%Z as [a4 ->]; [lia | lia |].
    destruct (Hu (width / 2) 0)%Z as [a5 ->]; [lia | lia |].
    cbn [foldl length]. unfold load. cbn [lookup_total list_lookup_total].
    rewrite !Math_round_mean5. reflexivity.
Qed.

(** The 1 by 1 image of colour (10,20,30), a 10 by 10 image of colour
    (200,200,200), and a 2 by 1 image whose channel means are 0.6, 2.2 and
    1.8: the result is (1,2,2), where cutting down would give (0,2,1). *)
Lemma detectBackgroundColor_samples_witness :
  detectBackgroundColor (Canvas.mk 1 1 [10; 20; 30; 255]%Z) 1 1 =
    mkRGB 10 20 30 /\
  detectBackgroundColor
    (Canvas.mk 10 10 (mjoin (replicate 100 [200; 200; 200; 255]%Z))) 10 10 =
    mkRGB 200 200 200 /\
  detectBackgroundColor
    (Canvas.mk 2 1 [0; 1; 0; 255; 1; 3; 3; 255]%Z) 2 1 = mkRGB 1 2 2.
Proof.
  split; [| split].
  - apply (detectBackgroundColor_samples
             (Canvas.mk 1 1 [10; 20; 30; 255]%Z) 1 1 10 20 30);
      [lia | lia |].
    intros x y Hx Hy.
    assert (x = 0%Z) as -> by lia. assert (y = 0%Z) as -> by lia.
    exists 255%Z. reflexivity.
  - apply (detectBackgroundColor_samples
             (Canvas.mk 10 10 (mjoin (replicate 100 [200; 200; 200; 255]%Z)))
             10 10 200 200 200); [lia | lia |].
    intros x y Hx Hy. exists 255%Z.
    assert (x = 0 \/ x = 1 \/ x = 2 \/ x = 3 \/ x = 4 \/
            x = 5 \/ x = 6 \/ x = 7 \/ x = 8 \/ x = 9)%Z as Hxs by lia.
    assert (y = 0 \/ y = 1 \/ y = 2 \/ y = 3 \/ y = 4 \/
            y = 5 \/ y = 6 \/ y = 7 \/ y = 8 \/ y = 9)%Z as Hys by lia.
    clear Hx Hy.
    repeat (destruct Hxs as [-> | Hxs]); try subst x;
      repeat (destruct Hys as [-> | Hys]); try subst y;
      vm_compute; reflexivity.
  - destruct (proj1 (detectBackgroundColor_samples
                       (Canvas.mk 2 1 [0; 1; 0; 255; 1; 3; 3; 255]%Z) 2 1
                       0 0 0)) as (zr & zg & zb & -> & Hr & Hg & Hb).
    change (Canvas.pixel (Canvas.mk 2 1 [0; 1; 0; 255; 1; 3; 3; 255]%Z) 0 0)
      with [0; 1; 0; 255]%Z in Hr, Hg, Hb.
    change (Canvas.pixel (Canvas.mk 2 1 [0; 1; 0; 255; 1; 3; 3; 255]%Z)
              (2 - 1) 0) with [1; 3; 3; 255]%Z in Hr, Hg, Hb.
    change (Canvas.pixel (Canvas.mk 2 1 [0; 1; 0; 255; 1; 3; 3; 255]%Z)
              0 (1 - 1)) with [0; 1; 0; 255]%Z in Hr, Hg, Hb.
    change (Canvas.pixel (Canvas.mk 2 1 [0; 1; 0; 255; 1; 3; 3; 255]%Z)
              (2 - 1) (1 - 1)) with [1; 3; 3; 255]%Z in Hr, Hg, Hb.
    change (Canvas.pixel (Canvas.mk 2 1 [0; 1; 0; 255; 1; 3; 3; 255]%Z)
              (2 / 2) 0) with [1; 3; 3; 255]%Z in Hr, Hg, Hb.
    cbn [lookup_total list_lookup_total] in Hr, Hg, Hb.
    assert (zr = 1%Z) as ->.
    { assert (0 < IZR zr < 2) as [H0 H1] by lra.
      apply lt_IZR in H0, H1. lia. }
    assert (zg = 2%Z) as ->.
    { assert (1 < IZR zg < 3) as [H0 H1] by lra.
      apply lt_IZR in H0, H1. lia. }
    assert (zb = 2%Z) as ->.
    { assert (1 < IZR zb < 3) as [H0 H1] by lra.
      apply lt_IZR in H0, H1. lia. }
    reflexivity.
Defined.

(* ------------------------------------------------------------------ *)
(** * Painting on the mask *)

(** C8.  A pointer whose position relative to the displayed image lies
    outside [[0, width] x [0, height]] of the image rectangle paints
    nothing: the mask canvas is left as it was and no recomposition is
    requested. *)
Theorem handleMouseMove_outside_image
    (e : PointerEvent) (st : AppState) (imgRect : DOMRect.t)
    (clientX clientY : number) :
  displayImgRef st = Some imgRect ->
  clientPosition e = Some (clientX, clientY) ->
  clientX - DOMRect.left imgRect < 0 \/
  DOMRect.width imgRect < clientX - DOMRect.left imgRect \/
  clientY - DOMRect.top imgRect < 0 \/
  DOMRect.height imgRect < clientY - DOMRect.top imgRect ->
  maskCanvasRef (handleMouseMove e st) = maskCanvasRef st /\
  processImageCalls (handleMouseMove e st) = processImageCalls st.
Proof.
  intros Himg Hpos Hout. unfold handleMouseMove.
  rewrite Himg, Hpos.
  destruct (isEditMode st); [| split; reflexivity].
  destruct (image st); [| split; reflexivity].
  unfold setCursorPos. cbn [isDrawing maskCanvasRef processImageCalls].
  destruct (isDrawing st); [| split; reflexivity].
  destruct (maskCanvasRef st) as [canvas |]; [| split; reflexivity].
  assert (gte (clientX - DOMRect.left imgRect) 0 &&
          lte (clientX - DOMRect.left imgRect) (DOMRect.width imgRect) &&
          gte (clientY - DOMRect.top imgRect) 0 &&
          lte (clientY - DOMRect.top imgRect) (DOMRect.height imgRect)
          = false) as ->.
  { unfold gte, lte.
    repeat match goal with |- context [Rle_dec ?x ?y] =>
      destruct (Rle_dec x y) end; cbn; try reflexivity; lra. }
  split; reflexivity.
Qed.

Lemma handleMouseMove_outside_image_witness :
  maskCanvasRef
    (handleMouseMove
       (MouseEvent (DOMRect.mk 0 0 300 300) 5 70)
       (mkApp (Some (ImageDataState.mk "blob:icon" None 200 200))
          (mkOptions 20 30 (mkRGB 255 255 255) true 20) true true
          (mkCursorPos (-100) (-100) false)
          (Some (MaskCanvas.mk 200 200 []))
          (Some (DOMRect.mk 10 20 100 100)) 0)) =
    Some (MaskCanvas.mk 200 200 []) /\
  processImageCalls
    (handleMouseMove
       (MouseEvent (DOMRect.mk 0 0 300 300) 5 70)
       (mkApp (Some (ImageDataState.mk "blob:icon" None 200 200))
          (mkOptions 20 30 (mkRGB 255 255 255) true 20) true true
          (mkCursorPos (-100) (-100) false)
          (Some (MaskCanvas.mk 200 200 []))
          (Some (DOMRect.mk 10 20 100 100)) 0)) = 0%nat.
Proof.
  apply (handleMouseMove_outside_image
           (MouseEvent (DOMRect.mk 0 0 300 300) 5 70)
           (mkApp (Some (ImageDataState.mk "blob:icon" None 200 200))
              (mkOptions 20 30 (mkRGB 255 255 255) true 20) true true
              (mkCursorPos (-100) (-100) false)
              (Some (MaskCanvas.mk 200 200 []))
              (Some (DOMRect.mk 10 20 100 100)) 0)
           (DOMRect.mk 10 20 100 100) 5 70 eq_refl eq_refl).
  left. cbn. lra.
Defined.



(* ------------------------------------------------------------------ *)
(** * Further properties of the colour distance *)

Section DistanceMetric.

Lemma sq_eq_0 (x : R) : x ^ 2 = 0 -> x = 0.
Proof.
  intros Hx. destruct (Rtotal_order x 0) as [Hlt | [Heq | Hgt]];
    [exfalso; nra | exact Heq | exfalso; nra].
Qed.

Lemma distance_sq (c1 c2 : RGBColor) :
  getColorDistance c1 c2 * getColorDistance c1 c2 =
  (r c1 - r c2) ^ 2 + (g c1 - g c2) ^ 2 + (b c1 - b c2) ^ 2.
Proof.
  unfold getColorDistance, Math_sqrt, Math_pow.
  apply sqrt_sqrt, sum_squares_nonneg.
Qed.

(** The distance between two byte colours is at most that between black and
    white, which is below 442. *)
Lemma distance_byte_lt_442 (c1 c2 : RGBColor) :
  byteColor c1 -> byteColor c2 -> getColorDistance c1 c2 < 442.
Proof.
  intros (Hr1 & Hg1 & Hb1) (Hr2 & Hg2 & Hb2).
  apply getColorDistance_lt; [lra |].
  assert ((r c1 - r c2) ^ 2 <= 255 * 255) by nra.
  assert ((g c1 - g c2) ^ 2 <= 255 * 255) by nra.
  assert ((b c1 - b c2) ^ 2 <= 255 * 255) by nra.
  lra.
Qed.

End DistanceMetric.

(** X1.  The colour distance is symmetric, never negative, and zero exactly
    between equal colours. *)
Theorem getColorDistance_separates (c1 c2 : RGBColor) :
  getColorDistance c1 c2 = getColorDistance c2 c1 /\
  0 <= getColorDistance c1 c2 /\
  (getColorDistance c1 c2 = 0 <-> c1 = c2).
Proof.
  split; [apply getColorDistance_sym |].
  split; [apply getColorDistance_nonneg |].
  split.
  - intros H0. pose proof (distance_sq c1 c2) as Hsq. rewrite H0 in Hsq.
    destruct c1 as [r1 g1 b1], c2 as [r2 g2 b2]. cbn [r g b] in Hsq.
    pose proof (pow2_ge_0 (r1 - r2)). pose proof (pow2_ge_0 (g1 - g2)).
    pose proof (pow2_ge_0 (b1 - b2)).
    assert (r1 - r2 = 0) by (apply sq_eq_0; lra).
    assert (g1 - g2 = 0) by (apply sq_eq_0; lra).
    assert (b1 - b2 = 0) by (apply sq_eq_0; lra).
    f_equal; lra.
  - intros ->. apply getColorDistance_same.
Qed.

(* ------------------------------------------------------------------ *)
(** * Further properties of the transparency compositor *)

(** The byte written for a pixel depends on its three colour bytes only. *)
Lemma pixelAlpha_ext targetColor tolerance smoothRange
    (data1 data2 : list Z) (i : nat) :
  data1 !! i = data2 !! i ->
  data1 !! (i + 1)%nat = data2 !! (i + 1)%nat ->
  data1 !! (i + 2)%nat = data2 !! (i + 2)%nat ->
  pixelAlpha targetColor tolerance smoothRange data1 i =
  pixelAlpha targetColor tolerance smoothRange data2 i.
Proof.
  intros H0 H1 H2. unfold pixelAlpha. rewrite H0, H1, H2. reflexivity.
Qed.

(** X4.  The compositor never reads the alpha channel: two buffers of the
    same length that agree on every colour byte give the same result. *)
Theorem makeTransparent_ignores_alpha
    ctx1 width1 height1 ctx2 width2 height2 targetColor tolerance smoothness :
  length (Canvas.getImageData ctx1 0 0 width1 height1) =
    length (Canvas.getImageData ctx2 0 0 width2 height2) ->
  (forall j : nat, (j mod 4 <> 3)%nat ->
     Canvas.getImageData ctx1 0 0 width1 height1 !! j =
     Canvas.getImageData ctx2 0 0 width2 height2 !! j) ->
  makeTransparent ctx1 width1 height1 targetColor tolerance smoothness =
  makeTransparent ctx2 width2 height2 targetColor tolerance smoothness.
Proof.
  intros Hlen Hrgb. apply list_eq. intros j.
  rewrite !makeTransparent_lookup, Hlen.
  mod4 j. mod4 (j - 3)%nat. mod4 (j - 3 + 1)%nat. mod4 (j - 3 + 2)%nat.
  destruct (decide _) as [[Hm Hl] | Hn].
  - f_equal. apply pixelAlpha_ext; apply Hrgb; lia.
  - destruct (decide (j mod 4 = 3)%nat) as [Hm | Hm].
    + rewrite !lookup_ge_None_2; [reflexivity | lia | lia].
    + apply Hrgb. exact Hm.
Qed.

Lemma makeTransparent_ignores_alpha_witness :
  makeTransparent (Canvas.mk 1 1 [225; 215; 255; 7]%Z) 1 1
    (mkRGB 255 255 255) 20 (Some 30) =
  makeTransparent (Canvas.mk 1 1 [225; 215; 255; 200]%Z) 1 1
    (mkRGB 255 255 255) 20 (Some 30).
Proof.
  apply (makeTransparent_ignores_alpha
           (Canvas.mk 1 1 [225; 215; 255; 7]%Z) 1 1
           (Canvas.mk 1 1 [225; 215; 255; 200]%Z) 1 1).
  - reflexivity.
  - intros j Hj.
    destruct j as [| [| [| [| j]]]]; try reflexivity.
    exfalso. apply Hj. reflexivity.
Defined.

(** X6.  Every alpha the compositor writes is a byte, so a buffer of bytes
    stays a buffer of bytes. *)
Theorem makeTransparent_bytes
    ctx width height targetColor tolerance smoothness :
  Forall isByte (Canvas.getImageData ctx 0 0 width height) ->
  Forall isByte
    (makeTransparent ctx width height targetColor tolerance smoothness).
Proof.
  intros Hin. apply Forall_lookup. intros j x Hx.
  rewrite makeTransparent_lookup in Hx.
  destruct (decide _) as [_ | _].
  - injection Hx as <-. unfold pixelAlpha.
    repeat match goal with |- context [match ?o with _ => _ end] =>
      destruct o end; apply ToUint8Clamp_range.
  - exact (proj1 (Forall_lookup _ _) Hin j x Hx).
Qed.

Lemma makeTransparent_bytes_witness :
  Forall isByte
    (makeTransparent (Canvas.mk 1 1 [225; 215; 255; 7]%Z) 1 1
       (mkRGB 255 255 255) 20 (Some 30)).
Proof.
  apply (makeTransparent_bytes (Canvas.mk 1 1 [225; 215; 255; 7]%Z) 1 1).
  change (Forall isByte [225; 215; 255; 7]%Z).
  repeat apply Forall_cons_2; try apply Forall_nil_2; unfold isByte; lia.
Defined.

Section ClassificationParameters.

Variable d : number.

Lemma alphaValue_antitone_tolerance (t1 t2 smoothRange : number) :
  0 < smoothRange -> t1 <= t2 ->
  alphaValue t2 smoothRange d <= alphaValue t1 smoothRange d.
Proof.
  intros Hs Ht.
  pose proof (alphaValue_range t2 smoothRange d) as [_ Hhi].
  pose proof (alphaValue_range t1 smoothRange d) as [Hlo _].
  unfold alphaValue, lte, Math_min, Math_max in *.
  destruct (Rle_dec d t2) as [H2 | H2]; [exact Hlo |].
  destruct (Rle_dec d t1) as [H1 | H1]; [lra |].
  destruct (Rle_dec d (t1 + smoothRange)) as [H1' | H1']; [| exact Hhi].
  destruct (Rle_dec d (t2 + smoothRange)) as [H2' | H2']; [| lra].
  apply Rle_min_compat_l, Rle_max_compat_l.
  apply Rmult_le_compat_r; [lra |].
  apply Rmult_le_compat_r; [| lra].
  left. apply Rinv_0_lt_compat. exact Hs.
Qed.

Lemma alphaValue_antitone_smoothRange (t s1 s2 : number) :
  0 < s1 -> s1 <= s2 ->
  alphaValue t s2 d <= alphaValue t s1 d.
Proof.
  intros Hs Hle.
  pose proof (alphaValue_range t s2 d) as [_ Hhi].
  pose proof (alphaValue_range t s1 d) as [Hlo _].
  unfold alphaValue, lte, Math_min, Math_max in *.
  destruct (Rle_dec d t) as [Ht | Ht]; [lra |].
  destruct (Rle_dec d (t + s1)) as [H1 | H1]; [| exact Hhi].
  destruct (Rle_dec d (t + s2)) as [H2 | H2]; [| lra].
  apply Rle_min_compat_l, Rle_max_compat_l.
  apply Rmult_le_compat_r; [lra |].
  apply Rmult_le_compat_l; [lra |].
  apply Rinv_le_contravar; assumption.
Qed.

End ClassificationParameters.

(** X7.  Raising the tolerance never makes a pixel more opaque. *)
Theorem makeTransparent_tolerance_antitone
    ctx width height targetColor (t1 t2 : number) smoothness k p :
  getPixel (Canvas.getImageData ctx 0 0 width height) k = Some p ->
  t1 <= t2 ->
  exists a1 a2 : Z,
    getPixel (makeTransparent ctx width height targetColor t1 smoothness) k =
      Some (withAlpha p a1) /\
    getPixel (makeTransparent ctx width height targetColor t2 smoothness) k =
      Some (withAlpha p a2) /\
    (a2 <= a1)%Z.
Proof.
  intros Hp Ht. eexists _, _.
  split; [exact (makeTransparent_getPixel _ _ _ _ _ _ _ _ Hp) |].
  split; [exact (makeTransparent_getPixel _ _ _ _ _ _ _ _ Hp) |].
  apply ToUint8Clamp_mono, alphaValue_antitone_tolerance; [| exact Ht].
  pose proof (smoothRangeOf_ge_1 smoothness). lra.
Qed.

Lemma makeTransparent_tolerance_antitone_witness :
  exists a1 a2 : Z,
    getPixel
      (makeTransparent (Canvas.mk 1 1 [225; 215; 255; 7]%Z) 1 1
         (mkRGB 255 255 255) 20 (Some 30)) 0 =
      Some (withAlpha (mkPixel 225 215 255 7) a1) /\
    getPixel
      (makeTransparent (Canvas.mk 1 1 [225; 215; 255; 7]%Z) 1 1
         (mkRGB 255 255 255) 40 (Some 30)) 0 =
      Some (withAlpha (mkPixel 225 215 255 7) a2) /\
    (a2 <= a1)%Z.
Proof.
  apply (makeTransparent_tolerance_antitone
           (Canvas.mk 1 1 [225; 215; 255; 7]%Z) 1 1 (mkRGB 255 255 255)
           20 40 (Some 30) 0%nat (mkPixel 225 215 255 7) eq_refl).
  lra.
Defined.

(** X8.  Raising the smoothness never makes a pixel more opaque. *)
Theorem makeTransparent_smoothness_antitone
    ctx width height targetColor tolerance (s1 s2 : number) k p :
  getPixel (Canvas.getImageData ctx 0 0 width height) k = Some p ->
  s1 <= s2 ->
  exists a1 a2 : Z,
    getPixel
      (makeTransparent ctx width height targetColor tolerance (Some s1)) k =
      Some (withAlpha p a1) /\
    getPixel
      (makeTransparent ctx width height targetColor tolerance (Some s2)) k =
      Some (withAlpha p a2) /\
    (a2 <= a1)%Z.
Proof.
  intros Hp Hs. eexists _, _.
  split; [exact (makeTransparent_getPixel _ _ _ _ _ _ _ _ Hp) |].
  split; [exact (makeTransparent_getPixel _ _ _ _ _ _ _ _ Hp) |].
  apply ToUint8Clamp_mono, alphaValue_antitone_smoothRange.
  - pose proof (smoothRangeOf_ge_1 (Some s1)). lra.
  - rewrite !smoothRangeOf_Some. apply Rle_max_compat_r. exact Hs.
Qed.

Lemma makeTransparent_smoothness_antitone_witness :
  exists a1 a2 : Z,
    getPixel
      (makeTransparent (Canvas.mk 1 1 [225; 215; 255; 7]%Z) 1 1
         (mkRGB 255 255 255) 20 (Some 0)) 0 =
      Some (withAlpha (mkPixel 225 215 255 7) a1) /\
    getPixel
      (makeTransparent (Canvas.mk 1 1 [225; 215; 255; 7]%Z) 1 1
         (mkRGB 255 255 255) 20 (Some 100)) 0 =
      Some (withAlpha (mkPixel 225 215 255 7) a2) /\
    (a2 <= a1)%Z.
Proof.
  apply (makeTransparent_smoothness_antitone
           (Canvas.mk 1 1 [225; 215; 255; 7]%Z) 1 1 (mkRGB 255 255 255)
           20 0 100 0%nat (mkPixel 225 215 255 7) eq_refl).
  lra.
Defined.

(** X9.  With a tolerance of 442 or more, above the largest distance two byte
    colours can have, every pixel becomes fully transparent. *)
Theorem makeTransparent_tolerance_442
    ctx width height targetColor tolerance smoothness k p :
  getPixel (Canvas.getImageData ctx 0 0 width height) k = Some p ->
  isByte (red p) -> isByte (green p) -> isByte (blue p) ->
  byteColor targetColor ->
  442 <= tolerance ->
  getPixel (makeTransparent ctx width height targetColor tolerance smoothness)
    k =
  Some (mkPixel (red p) (green p) (blue p) 0).
Proof.
  intros Hp [Hr0 Hr1] [Hg0 Hg1] [Hb0 Hb1] Ht Htol.
  rewrite (makeTransparent_getPixel _ _ _ _ _ _ _ _ Hp).
  assert (byteColor (colorOf p)) as Hc.
  { unfold byteColor, colorOf. cbn [r g b].
    apply IZR_le in Hr0, Hr1, Hg0, Hg1, Hb0, Hb1. lra. }
  pose proof (distance_byte_lt_442 _ _ Hc Ht) as Hd.
  rewrite alphaValue_transparent by lra.
  rewrite ToUint8Clamp_0. reflexivity.
Qed.

Lemma makeTransparent_tolerance_442_witness :
  getPixel
    (makeTransparent (Canvas.mk 1 1 [0; 0; 0; 255]%Z) 1 1
       (mkRGB 255 255 255) 442 (Some 30)) 0 =
  Some (mkPixel 0 0 0 0).
Proof.
  apply (makeTransparent_tolerance_442
           (Canvas.mk 1 1 [0; 0; 0; 255]%Z) 1 1 (mkRGB 255 255 255) 442
           (Some 30) 0%nat (mkPixel 0 0 0 255) eq_refl);
    unfold isByte, byteColor; cbn [red green blue r g b]; try lia; lra.
Defined.

(* ------------------------------------------------------------------ *)
(** * Reading a rectangle of a canvas *)

Section FixedChunks.

Context {A B : Type} (f : A -> list B) (n : nat).
Hypothesis f_length : forall a : A, length (f a) = n.

Lemma bind_fixed_length (l : list A) : length (l ≫= f) = (length l * n)%nat.
Proof.
  induction l as [| a l IH]; [reflexivity |].
  rewrite bind_cons, length_app, IH, f_length. cbn. lia.
Qed.

Lemma bind_fixed_lookup (l : list A) (i j : nat) :
  (j < n)%nat ->
  (l ≫= f) !! (i * n + j)%nat = l !! i ≫= (fun a => f a !! j).
Proof.
  intros Hj. revert i. induction l as [| a l IH]; intros i.
  - reflexivity.
  - rewrite bind_cons. destruct i as [| i].
    + rewrite lookup_app_l by (rewrite f_length; lia). reflexivity.
    + rewrite lookup_app_r by (rewrite f_length; lia).
      rewrite f_length.
      replace (S i * n + j - n)%nat with (i * n + j)%nat by lia.
      apply IH.
Qed.

End FixedChunks.

Lemma pixel_length (ctx : Canvas.t) (x y : Z) :
  length (Canvas.pixel ctx x y) = 4%nat.
Proof. unfold Canvas.pixel. destruct (_ && _); reflexivity. Qed.

Lemma getImageData_row_length (ctx : Canvas.t) (sx sw y : Z) :
  length (seqZ 0 sw ≫= fun x => Canvas.pixel ctx (sx + x) y) =
  (Z.to_nat sw * 4)%nat.
Proof.
  rewrite (bind_fixed_length _ 4) by (intros; apply pixel_length).
  rewrite length_seqZ. reflexivity.
Qed.

Lemma getImageData_length (ctx : Canvas.t) (sx sy sw sh : Z) :
  length (Canvas.getImageData ctx sx sy sw sh) =
  (4 * (Z.to_nat sw * Z.to_nat sh))%nat.
Proof.
  unfold Canvas.getImageData.
  rewrite (bind_fixed_length _ (Z.to_nat sw * 4))
    by (intros; apply getImageData_row_length).
  rewrite length_seqZ. lia.
Qed.

(** Byte [c] of the pixel in column [x] and row [y] of the rectangle. *)
Lemma getImageData_lookup (ctx : Canvas.t) (sx sy sw sh : Z) (x y c : nat) :
  (x < Z.to_nat sw)%nat -> (y < Z.to_nat sh)%nat -> (c < 4)%nat ->
  Canvas.getImageData ctx sx sy sw sh !! (4 * (y * Z.to_nat sw + x) + c)%nat =
  Canvas.pixel ctx (sx + Z.of_nat x) (sy + Z.of_nat y) !! c.
Proof.
  intros Hx Hy Hc. unfold Canvas.getImageData.
  replace (4 * (y * Z.to_nat sw + x) + c)%nat
    with (y * (Z.to_nat sw * 4) + (x * 4 + c))%nat by lia.
  rewrite (bind_fixed_lookup _ (Z.to_nat sw * 4))
    by (first [intros; apply getImageData_row_length | lia]).
  rewrite (lookup_seqZ_lt 0 sh y) by lia. cbn [mbind option_bind].
  rewrite (bind_fixed_lookup _ 4) by (first [intros; apply pixel_length | lia]).
  rewrite (lookup_seqZ_lt 0 sw x) by lia. cbn [mbind option_bind].
  rewrite !Z.add_0_l. reflexivity.
Qed.

(** Pixel [k] of the whole rectangle is the canvas pixel in column
    [k mod sw] of row [k / sw]. *)
Lemma getImageData_getPixel (ctx : Canvas.t) (sw sh : Z) (k : nat) (p : Pixel) :
  getPixel (Canvas.getImageData ctx 0 0 sw sh) k = Some p ->
  (0 <= Z.of_nat (k mod Z.to_nat sw) < sw)%Z /\
  (0 <= Z.of_nat (k / Z.to_nat sw) < sh)%Z /\
  Canvas.pixel ctx (Z.of_nat (k mod Z.to_nat sw)) (Z.of_nat (k / Z.to_nat sw))
  = [red p; green p; blue p; alpha p].
Proof.
  intros Hp. apply getPixel_Some in Hp as (Hr & Hg & Hb & Ha).
  pose proof (lookup_lt_Some _ _ _ Ha) as Hlen.
  rewrite getImageData_length in Hlen.
  set (w := Z.to_nat sw) in *. set (h := Z.to_nat sh) in *.
  assert (0 < w)%nat as Hw by (destruct w; lia).
  assert (k < w * h)%nat as Hk by lia.
  pose proof (Nat.div_mod_eq k w) as Hdm.
  pose proof (Nat.mod_upper_bound k w ltac:(lia)) as Hmod.
  assert (k / w < h)%nat as Hdiv by (apply Nat.Div0.div_lt_upper_bound; lia).
  assert (k = k / w * w + k mod w)%nat as Hk' by lia.
  split; [subst w; lia |]. split; [subst h; lia |].
  pose proof (pixel_length ctx (Z.of_nat (k mod w)) (Z.of_nat (k / w))) as Hpl.
  assert (forall c : nat, (c < 4)%nat ->
            Canvas.pixel ctx (Z.of_nat (k mod w)) (Z.of_nat (k / w)) !! c =
            Canvas.getImageData ctx 0 0 sw sh !! (4 * k + c)%nat) as Hpix.
  { intros c Hc.
    pose proof (getImageData_lookup ctx 0 0 sw sh (k mod w) (k / w) c
                  Hmod Hdiv Hc) as HL.
    rewrite !Z.add_0_l in HL. fold w in HL. rewrite <- Hk' in HL.
    symmetry. exact HL. }
  pose proof (Hpix 0%nat ltac:(lia)) as H0.
  pose proof (Hpix 1%nat ltac:(lia)) as H1.
  pose proof (Hpix 2%nat ltac:(lia)) as H2.
  pose proof (Hpix 3%nat ltac:(lia)) as H3.
  rewrite Nat.add_0_r, Hr in H0. rewrite Hg in H1. rewrite Hb in H2.
  rewrite Ha in H3.
  destruct (Canvas.pixel ctx _ _) as [| x0 [| x1 [| x2 [| x3 [| x4 l]]]]];
    try discriminate Hpl.
  cbn in H0, H1, H2, H3. congruence.
Qed.

(* ------------------------------------------------------------------ *)
(** * Further properties of the background detector *)

Lemma detectBackgroundColor_uniform
    (ctx : Canvas.t) (width height : Z) (cr cg cb : Z) :
  (1 <= width)%Z -> (1 <= height)%Z ->
  uniformImage ctx width height cr cg cb ->
  detectBackgroundColor ctx width height = mkRGB (IZR cr) (IZR cg) (IZR cb).
Proof.
  intros Hw Hh Hu.
  assert (0 <= width / 2 < width)%Z as Hmid.
  { split; [apply Z.div_pos; lia | apply Z.div_lt_upper_bound; lia]. }
  unfold detectBackgroundColor.
  destruct (Hu 0 0)%Z as [a1 ->]; [lia | lia |].
  destruct (Hu (width - 1) 0)%Z as [a2 ->]; [lia | lia |].
  destruct (Hu 0 (height - 1))%Z as [a3 ->]; [lia | lia |].
  destruct (Hu (width - 1) (height - 1))%Z as [a4 ->]; [lia | lia |].
  destruct (Hu (width / 2) 0)%Z as [a5 ->]; [lia | lia |].
  cbn [foldl length]. unfold load. cbn [lookup_total list_lookup_total].
  rewrite !Math_round_mean5. reflexivity.
Qed.

(** X10.  Detection followed by compositing, as [processImage] chains them:
    on an image of one colour the detected target is that colour, so with any
    tolerance from 0 on every pixel becomes fully transparent and keeps its
    colour bytes. *)
Theorem autodetect_erases_uniform_image
    (ctx : Canvas.t) (width height : Z) (cr cg cb : Z)
    (tolerance : number) (smoothness : option number) (k : nat) (p : Pixel) :
  uniformImage ctx width height cr cg cb ->
  0 <= tolerance ->
  getPixel (Canvas.getImageData ctx 0 0 width height) k = Some p ->
  getPixel
    (makeTransparent ctx width height
       (detectBackgroundColor ctx width height) tolerance smoothness) k =
  Some (mkPixel cr cg cb 0).
Proof.
  intros Hu Htol Hp.
  pose proof (getImageData_getPixel _ _ _ _ _ Hp) as (Hx & Hy & Hpix).
  destruct (Hu _ _ Hx Hy) as [ca Hca].
  rewrite getImageData_1x1, Hpix in Hca.
  injection Hca as Hr Hg Hb _.
  rewrite (makeTransparent_getPixel _ _ _ _ _ _ _ _ Hp).
  rewrite (detectBackgroundColor_uniform ctx width height cr cg cb)
    by (first [exact Hu | lia]).
  unfold colorOf. rewrite Hr, Hg, Hb.
  rewrite getColorDistance_same, alphaValue_transparent by exact Htol.
  rewrite ToUint8Clamp_0. unfold withAlpha. rewrite Hr, Hg, Hb. reflexivity.
Qed.

Lemma autodetect_erases_uniform_image_witness :
  getPixel
    (makeTransparent (Canvas.mk 2 1 [10; 20; 30; 255; 10; 20; 30; 128]%Z) 2 1
       (detectBackgroundColor
          (Canvas.mk 2 1 [10; 20; 30; 255; 10; 20; 30; 128]%Z) 2 1)
       0 (Some 30)) 1 =
  Some (mkPixel 10 20 30 0).
Proof.
  apply (autodetect_erases_uniform_image
           (Canvas.mk 2 1 [10; 20; 30; 255; 10; 20; 30; 128]%Z) 2 1
           10 20 30 0 (Some 30) 1%nat (mkPixel 10 20 30 128)).
  - intros x y Hx Hy.
    assert (y = 0%Z) as -> by lia.
    assert (x = 0 \/ x = 1)%Z as [-> | ->] by lia;
      [exists 255%Z | exists 128%Z]; reflexivity.
  - lra.
  - reflexivity.
Defined.

Lemma pixel_bytes (ctx : Canvas.t) (x y : Z) :
  Forall isByte (Canvas.data ctx) -> Forall isByte (Canvas.pixel ctx x y).
Proof.
  intros Hdata.
  assert (forall i : nat, isByte (Canvas.data ctx !!! i)) as Hget.
  { intros i. rewrite list_lookup_total_alt.
    destruct (Canvas.data ctx !! i) as [v |] eqn:Hv.
    - exact (proj1 (Forall_lookup _ _) Hdata i v Hv).
    - unfold isByte. cbn. lia. }
  unfold Canvas.pixel. destruct (_ && _).
  - cbn [fmap list_fmap]. repeat apply Forall_cons_2; try apply Forall_nil_2;
      apply Hget.
  - repeat apply Forall_cons_2; try apply Forall_nil_2; unfold isByte; lia.
Qed.

Lemma load_byte (s : list Z) (c : nat) :
  Forall isByte s -> (c < length s)%nat -> 0 <= load s c <= 255.
Proof.
  intros Hs Hc. unfold load.
  destruct (lookup_lt_is_Some_2 s c Hc) as [v Hv].
  rewrite (list_lookup_total_correct _ _ _ Hv).
  destruct (proj1 (Forall_lookup _ _) Hs c v Hv) as [H0 H1].
  apply IZR_le in H0, H1. lra.
Qed.

Lemma Math_round_mean_byte (x : number) :
  0 <= x <= 255 * 5 ->
  exists z : Z, Math_round (x / INR 5) = IZR z /\ isByte z.
Proof.
  intros [H0 H1]. unfold Math_round. eexists. split; [reflexivity |].
  assert (INR 5 = 5) as -> by (cbn; lra).
  pose proof (Zfloor_bound (x / 5 + / 2)) as [Hf0 Hf1].
  split.
  - apply Zfloor_lub. lra.
  - apply Z.lt_succ_r. apply lt_IZR. rewrite succ_IZR. lra.
Qed.

(** X11.  On a canvas of bytes the detected colour has integer channels in
    the byte range, whatever the image and the dimensions passed. *)
Theorem detectBackgroundColor_bytes (ctx : Canvas.t) (width height : Z) :
  Forall isByte (Canvas.data ctx) ->
  exists zr zg zb : Z,
    detectBackgroundColor ctx width height =
      mkRGB (IZR zr) (IZR zg) (IZR zb) /\
    isByte zr /\ isByte zg /\ isByte zb.
Proof.
  intros Hdata. unfold detectBackgroundColor.
  rewrite !getImageData_1x1. cbn [foldl length].
  set (s1 := Canvas.pixel ctx 0 0).
  set (s2 := Canvas.pixel ctx (width - 1) 0).
  set (s3 := Canvas.pixel ctx 0 (height - 1)).
  set (s4 := Canvas.pixel ctx (width - 1) (height - 1)).
  set (s5 := Canvas.pixel ctx (width / 2) 0).
  assert (forall c : nat, (c < 4)%nat ->
            0 <= 0 + load s1 c + load s2 c + load s3 c + load s4 c + load s5 c
              <= 255 * 5) as Hsum.
  { intros c Hc.
    pose proof (load_byte s1 c (pixel_bytes _ _ _ Hdata)
                  ltac:(subst s1; rewrite pixel_length; exact Hc)).
    pose proof (load_byte s2 c (pixel_bytes _ _ _ Hdata)
                  ltac:(subst s2; rewrite pixel_length; exact Hc)).
    pose proof (load_byte s3 c (pixel_bytes _ _ _ Hdata)
                  ltac:(subst s3; rewrite pixel_length; exact Hc)).
    pose proof (load_byte s4 c (pixel_bytes _ _ _ Hdata)
                  ltac:(subst s4; rewrite pixel_length; exact Hc)).
    pose proof (load_byte s5 c (pixel_bytes _ _ _ Hdata)
                  ltac:(subst s5; rewrite pixel_length; exact Hc)).
    lra. }
  destruct (Math_round_mean_byte _ (Hsum 0%nat ltac:(lia))) as (zr & -> & Hzr).
  destruct (Math_round_mean_byte _ (Hsum 1%nat ltac:(lia))) as (zg & -> & Hzg).
  destruct (Math_round_mean_byte _ (Hsum 2%nat ltac:(lia))) as (zb & -> & Hzb).
  exists zr, zg, zb. auto.
Qed.

Lemma detectBackgroundColor_bytes_witness :
  exists zr zg zb : Z,
    detectBackgroundColor
      (Canvas.mk 2 1 [10; 20; 30; 255; 200; 100; 0; 255]%Z) 2 1 =
      mkRGB (IZR zr) (IZR zg) (IZR zb) /\
    isByte zr /\ isByte zg /\ isByte zb.
Proof.
  apply (detectBackgroundColor_bytes
           (Canvas.mk 2 1 [10; 20; 30; 255; 200; 100; 0; 255]%Z) 2 1).
  cbn [Canvas.data].
  repeat apply Forall_cons_2; try apply Forall_nil_2; unfold isByte; lia.
Defined.

(* ------------------------------------------------------------------ *)
(** * Further properties of the paint handlers *)

(** One step of case analysis on [handleMouseMove]: either nothing but the
    cursor changes, or one disc is filled and one recomposition requested. *)
Lemma handleMouseMove_cases (e : PointerEvent) (st : AppState) :
  (exists c : option CursorPos,
     handleMouseMove e st = from_option (fun c => setCursorPos c st) st c) \/
  (exists (imgRect : DOMRect.t) (canvas : MaskCanvas.t)
          (clientX clientY : number) (c : CursorPos),
     isEditMode st = true /\ isDrawing st = true /\
     displayImgRef st = Some imgRect /\ maskCanvasRef st = Some canvas /\
     clientPosition e = Some (clientX, clientY) /\
     0 <= clientX - DOMRect.left imgRect <= DOMRect.width imgRect /\
     0 <= clientY - DOMRect.top imgRect <= DOMRect.height imgRect /\
     handleMouseMove e st =
       processImage
         (setMaskCanvas
            (MaskCanvas.fillDisc
               (mkDisc (targetColor (options st))
                  ((clientX - DOMRect.left imgRect)
                   * (MaskCanvas.width canvas / DOMRect.width imgRect))
                  ((clientY - DOMRect.top imgRect)
                   * (MaskCanvas.height canvas / DOMRect.height imgRect))
                  ((brushSize (options st)
                    * (MaskCanvas.width canvas / DOMRect.width imgRect)) / 2))
               canvas)
            (setCursorPos c st))).
Proof.
  unfold handleMouseMove.
  destruct (isEditMode st) eqn:Hedit; [| left; exists None; reflexivity].
  destruct (image st) as [img |] eqn:Himg; [| left; exists None; reflexivity].
  destruct (displayImgRef st) as [imgRect |] eqn:Hrect;
    [| left; exists None; reflexivity].
  destruct (clientPosition e) as [[clientX clientY] |] eqn:Hpos;
    [| left; exists None; reflexivity].
  unfold setCursorPos at 1 2. cbn [isDrawing maskCanvasRef].
  destruct (isDrawing st) eqn:Hdraw; [| left; eexists (Some _); reflexivity].
  destruct (maskCanvasRef st) as [canvas |] eqn:Hcanvas;
    [| left; eexists (Some _); reflexivity].
  destruct (gte _ 0 && lte _ (DOMRect.width imgRect) && gte _ 0
            && lte _ (DOMRect.height imgRect)) eqn:Hin;
    [| left; eexists (Some _); reflexivity].
  right. exists imgRect, canvas, clientX, clientY.
  exists (mkCursorPos (clientX - DOMRect.left (containerRectOf e))
            (clientY - DOMRect.top (containerRectOf e)) true).
  repeat (split; [reflexivity |]).
  unfold gte, lte in Hin.
  repeat match type of Hin with context [Rle_dec ?x ?y] =>
    destruct (Rle_dec x y) end; try discriminate Hin.
  split; [lra |]. split; [lra |].
  unfold processImage, setMaskCanvas, setCursorPos.
  cbn [image options isEditMode isDrawing cursorPos maskCanvasRef
         displayImgRef processImageCalls].
  rewrite ?Himg, ?Hedit, ?Hdraw, ?Hrect, ?Hcanvas. reflexivity.
Qed.

(** X12.  [handleMouseMove] changes nothing but the cursor indicator, the
    discs on the mask and the count of recompositions: the image, the
    options, the two mode flags, the displayed rectangle and the size of the
    mask canvas are as before. *)
Theorem handleMouseMove_frame (e : PointerEvent) (st : AppState) :
  let st' := handleMouseMove e st in
  image st' = image st /\ options st' = options st /\
  isEditMode st' = isEditMode st /\ isDrawing st' = isDrawing st /\
  displayImgRef st' = displayImgRef st /\
  MaskCanvas.width <$> maskCanvasRef st' =
    MaskCanvas.width <$> maskCanvasRef st /\
  MaskCanvas.height <$> maskCanvasRef st' =
    MaskCanvas.height <$> maskCanvasRef st.
Proof.
  cbv zeta.
  destruct (handleMouseMove_cases e st)
    as [[[c |] ->] | (imgRect & canvas & x & y & c & _ & _ & _ & Hc & _ & _
                      & _ & ->)].
  - repeat split; reflexivity.
  - repeat split; reflexivity.
  - rewrite Hc. repeat split; reflexivity.
Qed.





Lemma handleMouseMove_not_drawing (e : PointerEvent) (st : AppState) :
  isDrawing st = false ->
  isDrawing (handleMouseMove e st) = false /\
  maskCanvasRef (handleMouseMove e st) = maskCanvasRef st /\
  processImageCalls (handleMouseMove e st) = processImageCalls st.
Proof.
  intros Hdraw.
  destruct (handleMouseMove_cases e st)
    as [[[c |] ->] | (imgRect & canvas & x & y & c & _ & Hd & _)].
  - repeat split; assumption.
  - repeat split; assumption.
  - congruence.
Qed.

(** X15.  While the button is up, moving the pointer paints nothing,
    however long and wherever it moves: the mask and the count of
    recompositions stay as they were.  In particular this holds from
    [stopDrawing] on. *)
Theorem stopDrawing_then_drag (es : list PointerEvent) (st : AppState) :
  (isDrawing st = false ->
   maskCanvasRef (drag es st) = maskCanvasRef st /\
   processImageCalls (drag es st) = processImageCalls st) /\
  maskCanvasRef (drag es (stopDrawing st)) = maskCanvasRef st /\
  processImageCalls (drag es (stopDrawing st)) = processImageCalls st.
Proof.
  assert (forall st0 : AppState, isDrawing st0 = false ->
            maskCanvasRef (drag es st0) = maskCanvasRef st0 /\
            processImageCalls (drag es st0) = processImageCalls st0) as Hup.
  { unfold drag. induction es as [| e es IH]; intros st0 Hdraw.
    - split; reflexivity.
    - cbn [foldl].
      destruct (handleMouseMove_not_drawing e st0 Hdraw) as (Hd & Hm & Hc).
      destruct (IH _ Hd) as [Hm' Hc']. rewrite Hm', Hc'. split; assumption. }
  split; [apply Hup |]. exact (Hup (stopDrawing st) eq_refl).
Qed.

Lemma stopDrawing_then_drag_witness :
  maskCanvasRef
    (drag [MouseEvent (DOMRect.mk 0 0 300 300) 60 70;
           MouseEvent (DOMRect.mk 0 0 300 300) 61 70]
       (mkApp (Some (ImageDataState.mk "blob:icon" None 200 200))
          (mkOptions 20 30 (mkRGB 255 255 255) true 20) true false
          (mkCursorPos (-100) (-100) false)
          (Some (MaskCanvas.mk 200 200 []))
          (Some (DOMRect.mk 10 20 100 100)) 0)) =
  Some (MaskCanvas.mk 200 200 []).
Proof.
  exact (proj1 (proj1 (stopDrawing_then_drag
                  [MouseEvent (DOMRect.mk 0 0 300 300) 60 70;
                   MouseEvent (DOMRect.mk 0 0 300 300) 61 70]
                  (mkApp (Some (ImageDataState.mk "blob:icon" None 200 200))
                     (mkOptions 20 30 (mkRGB 255 255 255) true 20) true false
                     (mkCursorPos (-100) (-100) false)
                     (Some (MaskCanvas.mk 200 200 []))
                     (Some (DOMRect.mk 10 20 100 100)) 0)) eq_refl)).
Defined.

(** X16.  Outside edit mode, or with no image loaded, or before the
    displayed image exists, pointer events change nothing at all. *)
Theorem drag_inactive (es : list PointerEvent) (st : AppState) :
  isEditMode st = false \/ image st = None \/ displayImgRef st = None ->
  drag es st = st.
Proof.
  intros Hoff. unfold drag. induction es as [| e es IH]; [reflexivity |].
  cbn [foldl].
  assert (handleMouseMove e st = st) as ->; [| exact IH].
  unfold handleMouseMove.
  destruct Hoff as [-> | [-> | ->]].
  - reflexivity.
  - destruct (isEditMode st); reflexivity.
  - destruct (isEditMode st), (image st); reflexivity.
Qed.

Lemma drag_inactive_witness :
  drag [MouseEvent (DOMRect.mk 0 0 300 300) 60 70;
        MouseEvent (DOMRect.mk 0 0 300 300) 61 70]
    (mkApp (Some (ImageDataState.mk "blob:icon" None 200 200))
       (mkOptions 20 30 (mkRGB 255 255 255) true 20) false true
       (mkCursorPos (-100) (-100) false)
       (Some (MaskCanvas.mk 200 200 []))
       (Some (DOMRect.mk 10 20 100 100)) 0) =
  mkApp (Some (ImageDataState.mk "blob:icon" None 200 200))
    (mkOptions 20 30 (mkRGB 255 255 255) true 20) false true
    (mkCursorPos (-100) (-100) false)
    (Some (MaskCanvas.mk 200 200 []))
    (Some (DOMRect.mk 10 20 100 100)) 0.
Proof.
  apply (drag_inactive
           [MouseEvent (DOMRect.mk 0 0 300 300) 60 70;
            MouseEvent (DOMRect.mk 0 0 300 300) 61 70]
           (mkApp (Some (ImageDataState.mk "blob:icon" None 200 200))
              (mkOptions 20 30 (mkRGB 255 255 255) true 20) false true
              (mkCursorPos (-100) (-100) false)
              (Some (MaskCanvas.mk 200 200 []))
              (Some (DOMRect.mk 10 20 100 100)) 0)).
  left. reflexivity.
Defined.

(** X17.  Pressing the button paints nothing by itself: [startDrawing] runs
    [handleMouseMove] with the [isDrawing] of the current render, which is
    still false; it only arms painting for the events that follow. *)
Theorem startDrawing_paints_nothing
    (originalImgRef : option Canvas.t) (e : PointerEvent) (st : AppState) :
  isDrawing st = false ->
  maskCanvasRef (startDrawing originalImgRef e st) = maskCanvasRef st /\
  processImageCalls (startDrawing originalImgRef e st) =
    processImageCalls st /\
  (isEditMode st = true -> is_Some (maskCanvasRef st) ->
   is_Some originalImgRef ->
   isDrawing (startDrawing originalImgRef e st) = true).
Proof.
  intros Hdraw. unfold startDrawing.
  destruct (handleMouseMove_not_drawing e st Hdraw) as (_ & Hm & Hc).
  destruct (isEditMode st), (maskCanvasRef st) as [m |] eqn:Hmask,
    originalImgRef as [o |];
    unfold setIsDrawing;
    cbn [maskCanvasRef processImageCalls isDrawing];
    (split; [first [assumption | reflexivity] |]);
    (split; [first [assumption | reflexivity] |]);
    intros He [? Hs1] [? Hs2]; congruence.
Qed.

Lemma startDrawing_paints_nothing_witness :
  maskCanvasRef
    (startDrawing (Some (Canvas.mk 1 1 [255; 255; 255; 255]%Z))
       (MouseEvent (DOMRect.mk 0 0 300 300) 60 70)
       (mkApp (Some (ImageDataState.mk "blob:icon" None 200 200))
          (mkOptions 20 30 (mkRGB 255 255 255) true 20) true false
          (mkCursorPos (-100) (-100) false)
          (Some (MaskCanvas.mk 200 200 []))
          (Some (DOMRect.mk 10 20 100 100)) 0)) =
  Some (MaskCanvas.mk 200 200 []).
Proof.
  exact (proj1 (startDrawing_paints_nothing
                  (Some (Canvas.mk 1 1 [255; 255; 255; 255]%Z))
                  (MouseEvent (DOMRect.mk 0 0 300 300) 60 70)
                  (mkApp (Some (ImageDataState.mk "blob:icon" None 200 200))
                     (mkOptions 20 30 (mkRGB 255 255 255) true 20) true false
                     (mkCursorPos (-100) (-100) false)
                     (Some (MaskCanvas.mk 200 200 []))
                     (Some (DOMRect.mk 10 20 100 100)) 0)
                  eq_refl)).
Defined.



(* ------------------------------------------------------------------ *)
(** * Hexadecimal colours *)

Lemma componentOk_bytes : forallb componentOk (seqZ 0 256) = true.
Proof. vm_compute. reflexivity. Qed.

Lemma componentToHex_byte (x : Z) :
  isByte x ->
  exists c1 c2 : ascii,
    componentToHex x = String c1 (String c2 EmptyString) /\
    isHexDigit c1 = true /\ isHexDigit c2 = true /\
    parseInt16 0 (String c1 (String c2 EmptyString)) = x.
Proof.
  intros [H0 H1].
  pose proof (proj1 (forallb_forall _ _) componentOk_bytes x) as Hok.
  assert (componentOk x = true) as Hx.
  { apply Hok. apply list_elem_of_In, elem_of_seqZ. lia. }
  unfold componentOk in Hx.
  destruct (componentToHex x) as [| c1 [| c2 [| c3 s]]]; try discriminate Hx.
  apply andb_true_iff in Hx as [Hx Hp]. apply andb_true_iff in Hx as [Hc1 Hc2].
  exists c1, c2. repeat split; try assumption. apply Z.eqb_eq, Hp.
Qed.

(** X20.  What the colour picker shows reads back as the same colour: for
    byte channels [rgbToHex] yields seven characters, and [hexToRgb] of them
    is the colour with those channels. *)
Theorem hexToRgb_rgbToHex (cr cg cb : Z) :
  isByte cr -> isByte cg -> isByte cb ->
  String.length (rgbToHex cr cg cb) = 7%nat /\
  hexToRgb (rgbToHex cr cg cb) = mkRGB (IZR cr) (IZR cg) (IZR cb).
Proof.
  intros Hr Hg Hb.
  destruct (componentToHex_byte cr Hr) as (r1 & r2 & Er & Hr1 & Hr2 & Pr).
  destruct (componentToHex_byte cg Hg) as (g1 & g2 & Eg & Hg1 & Hg2 & Pg).
  destruct (componentToHex_byte cb Hb) as (b1 & b2 & Eb & Hb1 & Hb2 & Pb).
  unfold rgbToHex. rewrite Er, Eg, Eb.
  split; [reflexivity |].
  unfold hexToRgb, execHexColor. cbn [String.append forallb].
  rewrite Hr1, Hr2, Hg1, Hg2, Hb1, Hb2. cbn [andb].
  rewrite Pr, Pg, Pb. reflexivity.
Qed.

Lemma hexToRgb_rgbToHex_witness :
  hexToRgb (rgbToHex 255 0 171) = mkRGB 255 0 171.
Proof.
  apply (hexToRgb_rgbToHex 255 0 171); unfold isByte; lia.
Defined.

Lemma hexDigitValue_range (c : ascii) :
  isHexDigit c = true -> (0 <= hexDigitValue c <= 15)%Z.
Proof.
  unfold isHexDigit, hexDigitValue.
  set (n := nat_of_ascii c).
  intros H.
  destruct (Z.leb_spec (Z.of_nat n) 57), (Z.leb_spec (Z.of_nat n) 70);
    repeat match type of H with
    | context [(?a <=? ?b)%nat] => destruct (Nat.leb_spec a b)
    end; cbn in H; try discriminate H; lia.
Qed.

(** X21.  [hexToRgb] accepts exactly six hexadecimal digits with an optional
    leading [#].  Whatever string it is given, every channel of the result
    is an integer in the byte range, and a string of any other length than 6
    or 7 gives black. *)
Theorem hexToRgb_total (hex : string) :
  (exists zr zg zb : Z,
     hexToRgb hex = mkRGB (IZR zr) (IZR zg) (IZR zb) /\
     isByte zr /\ isByte zg /\ isByte zb) /\
  (String.length hex <> 6%nat -> String.length hex <> 7%nat ->
   hexToRgb hex = mkRGB 0 0 0).
Proof.
  split.
  - unfold hexToRgb.
    destruct (execHexColor hex) as [[[g1 g2] g3] |] eqn:Hexec.
    + unfold execHexColor in Hexec.
      destruct (match hex with
                | String "#" rest => rest
                | _ => hex
                end) as [| c1 [| c2 [| c3 [| c4 [| c5 [| c6 [| c7 s]]]]]]];
        try discriminate Hexec.
      destruct (forallb isHexDigit [c1; c2; c3; c4; c5; c6]) eqn:Hall;
        [| discriminate Hexec].
      injection Hexec as <- <- <-.
      cbn [forallb] in Hall.
      repeat match type of Hall with
      | (_ && _)%bool = true => apply andb_true_iff in Hall as [? Hall]
      end.
      repeat match goal with
      | H : isHexDigit _ = true |- _ => apply hexDigitValue_range in H
      end.
      eexists _, _, _. split; [reflexivity |].
      unfold isByte. cbn [parseInt16]. repeat split; lia.
    + exists 0%Z, 0%Z, 0%Z. unfold isByte. repeat split; lia.
  - intros H6 H7. unfold hexToRgb, execHexColor.
    destruct hex as [| c0 s]; [reflexivity |].
    destruct (Ascii.ascii_dec c0 "#") as [-> | Hne].
    + destruct s as [| c1 [| c2 [| c3 [| c4 [| c5 [| c6 [| c7 s]]]]]]];
        cbn in H6, H7; try reflexivity; try lia.
    + assert (match String c0 s with
              | String "#" rest => rest
              | _ => String c0 s
              end = String c0 s) as ->.
      { destruct c0 as [[] [] [] [] [] [] [] []]; try reflexivity.
        exfalso. apply Hne. reflexivity. }
      destruct s as [| c1 [| c2 [| c3 [| c4 [| c5 [| c6 s]]]]]];
        cbn in H6, H7; try reflexivity; try lia.
Qed.

Lemma hexToRgb_total_witness : hexToRgb "#fff" = mkRGB 0 0 0.
Proof.
  apply (proj2 (hexToRgb_total "#fff")); cbn; lia.
Defined.
